(** * ReferentialGym: the dual labeled dataset's distractor sampler and the
    training loop of [ReferentialGame], as a shallow embedding.

    Sources:
    - src/ReferentialGym/datasets/dual_labeled_dataset.py
    - src/ReferentialGym/referential_game.py *)

From Stdlib Require Import Ascii String ZArith List Lia.
From stdpp Require Import base gmap sets list.
From Stdlib Require Import QArith.
Local Close Scope Q_scope.

Local Set Warnings "-register-all".

(* ===================================================================== *)
(** ** Python effects *)
(* ===================================================================== *)

(** The exceptions the modelled code can raise. *)
Inductive pyexc :=
| KeyError
| IndexError
| AssertionError
| AttributeError
| RuntimeError
| TypeError
| OSError
| ZeroDivisionError.

(** A computation either returns, raises, or does not terminate
    (the latter is reached by running out of fuel on a [while] loop). *)
Inductive outcome (A : Type) :=
| Ret (a : A)
| Exc (e : pyexc)
| Diverge.
Arguments Ret {A} a.
Arguments Exc {A} e.
Arguments Diverge {A}.

Definition obind {A B} (m : outcome A) (k : A -> outcome B) : outcome B :=
  match m with
  | Ret a => k a
  | Exc e => Exc e
  | Diverge => Diverge
  end.

Notation "x <- m ;; k" := (obind m (fun x => k))
  (at level 100, m at next level, right associativity).

(** Observable side effects of [sample] that do not stop it: the
    [print] calls and the [ipdb.set_trace()] breakpoint (modelled as the
    debugging session being resumed with [continue]). *)
Inductive event :=
| EvRemoveTargetFailed
| EvDebuggerBreak
| EvWarnNotEnough.

(** Python's [sub in s] on strings. *)
Fixpoint str_contains (sub s : string) : bool :=
  match s with
  | EmptyString => String.prefix sub s
  | String _ s' => String.prefix sub s || str_contains sub s'
  end.

(* ===================================================================== *)
(** ** Dictionaries with insertion order *)
(* ===================================================================== *)

(** A Python dict keyed by class keys (ints or strings in the source; Z
    here), in insertion order, as an association list with unique keys. *)
Fixpoint dict_get {V} (d : list (Z * V)) (k : Z) : option V :=
  match d with
  | [] => None
  | (k', v) :: d' => if Z.eqb k k' then Some v else dict_get d' k
  end.

(** [d[k] = v]: replaces the value in place, or appends a new entry. *)
Fixpoint dict_set {V} (d : list (Z * V)) (k : Z) (v : V) : list (Z * V) :=
  match d with
  | [] => [(k, v)]
  | (k', v') :: d' => if Z.eqb k k' then (k, v) :: d' else (k', v') :: dict_set d' k v
  end.

(** [list(d.keys())] *)
Definition dict_keys {V} (d : list (Z * V)) : list Z := map fst d.

(** A dict keyed by strings (the per-mode distractor counts). *)
Fixpoint sdict_get {V} (d : list (string * V)) (k : string) : option V :=
  match d with
  | [] => None
  | (k', v) :: d' => if String.eqb k k' then Some v else sdict_get d' k
  end.

(* ===================================================================== *)
(** ** Tensors and sampled items *)
(* ===================================================================== *)

(** A torch tensor: a scalar or a tensor of sub-tensors. Entries are
    floats in the source; the modelled code only writes 0.0 and 1.0, kept
    here as the integers 0 and 1. *)
Inductive tensor :=
| TLeaf (z : Z)
| TNode (ts : list tensor).

(** A value stored in a sampled item's dict. *)
Inductive val :=
| VInt (z : Z)
| VTensor (t : tensor)
| VOther (s : string).

(** [dataset[idx]]: a dict from string keys to values. *)
Definition item := list (string * val).

Definition item_keys (it : item) : list string := map fst it.

(** An underlying dataset: its items, and the class of each index
    ([dataset.getclass(idx)], or the second component of [dataset[idx]]
    when the dataset has no [getclass]). *)
Record dataset := {
  ds_items : list item;
  ds_getclass : nat -> Z
}.

Definition ds_len (d : dataset) : nat := length (ds_items d).

(* ===================================================================== *)
(** ** DualLabeledDataset.__init__ *)
(* ===================================================================== *)

(** [if cl not in classes: classes[cl] = []] then [classes[cl].append(i)]. *)
Definition add_to_class (cls : list (Z * list nat)) (cl : Z) (i : nat)
    : list (Z * list nat) :=
  let cls1 := match dict_get cls cl with
              | Some _ => cls
              | None => dict_set cls cl []
              end in
  dict_set cls1 cl (default [] (dict_get cls1 cl) ++ [i]).

(** The loop over [range(len(dataset))], each index shifted by [offset]
    (0 for the train dataset, [len(train)] for the test dataset). *)
Definition build_classes (d : dataset) (offset : nat) : list (Z * list nat) :=
  fold_left (fun cls idx => add_to_class cls (ds_getclass d idx) (offset + idx))
            (seq 0 (ds_len d)) [].

(** Adding the train classes to the test classes (lines 37-41). *)
Definition merge_train_into_test (train test : list (Z * list nat))
    : list (Z * list nat) :=
  fold_left
    (fun tcls '(cl, idxs) =>
       let tcls1 := match dict_get tcls cl with
                    | Some _ => tcls
                    | None => dict_set tcls cl []
                    end in
       fold_left (fun tc i => dict_set tc cl (default [] (dict_get tc cl) ++ [i]))
                 idxs tcls1)
    train test.

(** The state of a [DualLabeledDataset] object. [dl_nbr_distractors]
    is the per-mode distractor count [self.nbr_distractors] kept by the
    base class [Dataset] (see [set_nbr_distractors] below). *)
Record dual_ds := {
  dl_train : dataset;
  dl_test : dataset;
  dl_mode : string;
  dl_train_classes : list (Z * list nat);
  dl_test_classes : list (Z * list nat);
  dl_nbr_classes : nat;
  dl_nbr_distractors : list (string * nat)
}.

Definition DualLabeledDataset_init (train test : dataset) (mode : string)
    (nbr_distractors : list (string * nat)) : dual_ds :=
  let train_classes := build_classes train 0 in
  let test_classes0 := build_classes test (ds_len train) in
  let test_classes := merge_train_into_test train_classes test_classes0 in
  {| dl_train := train; dl_test := test; dl_mode := mode;
     dl_train_classes := train_classes;
     dl_test_classes := test_classes;
     dl_nbr_classes := length (dict_keys test_classes);
     dl_nbr_distractors := nbr_distractors |}.

Definition set_mode (ds : dual_ds) (newmode : string) : dual_ds :=
  {| dl_train := dl_train ds; dl_test := dl_test ds; dl_mode := newmode;
     dl_train_classes := dl_train_classes ds;
     dl_test_classes := dl_test_classes ds;
     dl_nbr_classes := dl_nbr_classes ds;
     dl_nbr_distractors := dl_nbr_distractors ds |}.

Definition getNbrClasses (ds : dual_ds) : nat :=
  if String.eqb (dl_mode ds) "test"%string then dl_nbr_classes ds
  else length (dl_train_classes ds).

(* ===================================================================== *)
(** ** DualLabeledDataset.sample: choosing the indices (lines 82-121) *)
(* ===================================================================== *)

(** [for class_idx in from_class: set_indices = set_indices.union(set(classes[class_idx]))] *)
Fixpoint union_classes (cls : list (Z * list nat)) (acc : gset nat) (from : list Z)
    : outcome (gset nat) :=
  match from with
  | [] => Ret acc
  | c :: from' =>
      match dict_get cls c with
      | None => Exc KeyError
      | Some l => union_classes cls (acc ∪ list_to_set l) from'
      end
  end.

(** [if excepts is not None: set_indices = set_indices.difference(excepts)] *)
Definition remove_excepts (s : gset nat) (excepts : option (list nat)) : gset nat :=
  match excepts with
  | Some ex => s ∖ list_to_set ex
  | None => s
  end.

(** The classes of the first pass: [from_class], or all keys if [None]. *)
Definition first_candidates (cls : list (Z * list nat)) (from_class : option (list Z))
    : list Z :=
  match from_class with
  | Some l => l
  | None => dict_keys cls
  end.

(** One pass of the [while test] loop and the loops after it. The loop
    has no bound in the source; [fuel] bounds the passes, and running out
    of it stands for non-termination. Returns the working set, the number
    of distractors to draw and the events printed so far. *)
Fixpoint sample_loop (fuel : nat) (cls : list (Z * list nat))
    (nbr_distractors : list (string * nat)) (mode : string) (idx : nat)
    (from_class : option (list Z)) (not_enough : bool)
    (excepts : option (list nat)) (evs : list event)
    : outcome (gset nat * nat * list event) :=
  match fuel with
  | O => Diverge
  | S fuel' =>
      let from := match from_class with
                  | Some l => if not_enough then dict_keys cls else l
                  | None => dict_keys cls
                  end in
      s0 <- union_classes cls ∅ from ;;
      let s1 := remove_excepts s0 excepts in
      nbr <- match sdict_get nbr_distractors mode with
             | Some n => Ret n
             | None => Exc KeyError
             end ;;
      let '(s2, evs1) :=
        if decide (idx ∈ s1) then (s1 ∖ {[idx]}, evs)
        else (s1, evs ++ [EvRemoveTargetFailed; EvDebuggerBreak]) in
      if Nat.ltb (size s2) nbr
      then sample_loop fuel' cls nbr_distractors mode idx (Some from) true
             excepts (evs1 ++ [EvWarnNotEnough])
      else Ret (s2, nbr, evs1)
  end.

(** [random.choice(list(set_indices))]: the [k]-th draw of the random
    source [rs] picks position [rs k mod len]. Every element of the list
    is reachable, so this covers every run of the source. *)
Fixpoint draw (rs : nat -> nat) (k n : nat) (s : gset nat) (acc : list nat)
    : outcome (list nat) :=
  match n with
  | O => Ret acc
  | S n' =>
      match elements s with
      | [] => Exc IndexError
      | l =>
          let chosen := nth (rs k mod length l) l 0 in
          draw rs (S k) n' (s ∖ {[chosen]}) (acc ++ [chosen])
      end
  end.

(** The partition map [sample] draws from in the current mode. *)
Definition active_classes (ds : dual_ds) : list (Z * list nat) :=
  if str_contains "test"%string (dl_mode ds) then dl_test_classes ds
  else dl_train_classes ds.

(** The target index in the global index space. *)
Definition target_global (ds : dual_ds) (idx : nat) : nat :=
  if str_contains "test"%string (dl_mode ds) then idx + ds_len (dl_train ds) else idx.

Definition sample_indices (ds : dual_ds) (idx : nat)
    (from_class : option (list Z)) (excepts : option (list nat))
    (rs : nat -> nat) (fuel : nat) : outcome (list nat * list event) :=
  let cls := active_classes ds in
  let gidx := target_global ds idx in
  r <- sample_loop fuel cls (dl_nbr_distractors ds) (dl_mode ds) gidx
         from_class false excepts [] ;;
  let '(s, nbr, evs) := r in
  indices <- draw rs 0 nbr s [gidx] ;;
  Ret (indices, evs).

(* ===================================================================== *)
(** ** DualLabeledDataset.sample: the per-item payload (lines 123-175) *)
(* ===================================================================== *)

(** A dict keyed by strings: [d[k] = v]. *)
Fixpoint sdict_set {V} (d : list (string * V)) (k : string) (v : V)
    : list (string * V) :=
  match d with
  | [] => [(k, v)]
  | (k', v') :: d' =>
      if String.eqb k k' then (k, v) :: d' else (k', v') :: sdict_set d' k v
  end.

(** [sample_d] maps each key to a Python list object. Two keys can share
    one list ([sample_d["exp_latents_values"] = sample_d["exp_latents"]]),
    so the dict maps keys to locations of a heap of lists. *)
Record store := {
  st_dict : list (string * nat);
  st_heap : list (list val)
}.

Definition heap_get (h : list (list val)) (l : nat) : list val := default [] (h !! l).

(** [sample_d[key].append(value)] on the list at location [l]. *)
Definition heap_append (h : list (list val)) (l : nat) (v : val) : list (list val) :=
  <[l := heap_get h l ++ [v]]> h.

(** [sample_d = {"experiences":[], "exp_labels":[], "exp_latents":[], "exp_latents_values":[]}] *)
Definition init_store : store :=
  {| st_dict := [("experiences", 0); ("exp_labels", 1); ("exp_latents", 2);
                 ("exp_latents_values", 3)]%string;
     st_heap := [[]; []; []; []] |}.

(** [torch.zeros((n))] *)
Definition zeros (n : nat) : tensor := TNode (replicate n (TLeaf 0%Z)).

(** Python/torch indexing of a dimension of length [len] by the int [i]:
    negative indices count from the end, others out of range raise. *)
Definition py_index (len : nat) (i : Z) : option nat :=
  if (0 <=? i)%Z then
    if (i <? Z.of_nat len)%Z then Some (Z.to_nat i) else None
  else if (- Z.of_nat len <=? i)%Z then Some (Z.to_nat (Z.of_nat len + i))
  else None.

(** [t[i] = v] on a one-dimensional tensor. *)
Definition setitem1 (t : tensor) (i : Z) (v : Z) : outcome tensor :=
  match t with
  | TNode ts =>
      match py_index (length ts) i with
      | Some j => Ret (TNode (<[j := TLeaf v]> ts))
      | None => Exc IndexError
      end
  | TLeaf _ => Exc IndexError
  end.

(** Lines 151-154: [latent = torch.zeros((self.nbr_classes))],
    [latent[sampled_d["exp_labels"]] = 1.0], after the [isinstance] assert. *)
Definition derive_latent (nbr_classes : nat) (label : val) : outcome tensor :=
  match label with
  | VInt z => setitem1 (zeros nbr_classes) z 1%Z
  | _ => Exc AssertionError
  end.

(** The loop over [sampled_d.items()] (lines 139-145). [need] is [need_reg]. *)
Definition register_keys (st : store) (need : list (string * bool)) (it : item)
    : store * list (string * bool) :=
  fold_left
    (fun '(st, need) '(key, value) =>
       match sdict_get (st_dict st) key with
       | None =>
           let l := length (st_heap st) in
           ({| st_dict := st_dict st ++ [(key, l)];
               st_heap := st_heap st ++ [[value]] |}, need)
       | Some l =>
           ({| st_dict := st_dict st; st_heap := heap_append (st_heap st) l value |},
            sdict_set need key false)
       end)
    it (st, need).

Definition lookup_or_keyerror {V} (d : list (string * V)) (k : string) : outcome V :=
  match sdict_get d k with
  | Some v => Ret v
  | None => Exc KeyError
  end.

(** The body of [for idx in indices] after [sampled_d = dataset[idx]]
    (lines 131-161). *)
Definition register_item (nbr_classes : nat) (st : store) (it : item) : outcome store :=
  let need0 := map (fun '(k, _) => (k, true)) (st_dict st) in
  let '(st1, need1) := register_keys st need0 it in
  nl <- lookup_or_keyerror need1 "exp_labels" ;;
  if nl then Exc AssertionError else
  nlat <- lookup_or_keyerror need1 "exp_latents" ;;
  st2 <- (if nlat then
            label <- lookup_or_keyerror it "exp_labels" ;;
            latent <- derive_latent nbr_classes label ;;
            l <- lookup_or_keyerror (st_dict st1) "exp_latents" ;;
            Ret {| st_dict := st_dict st1;
                   st_heap := heap_append (st_heap st1) l (VTensor latent) |}
          else Ret st1) ;;
  nlv <- lookup_or_keyerror need1 "exp_latents_values" ;;
  if nlv then
    l <- lookup_or_keyerror (st_dict st2) "exp_latents" ;;
    Ret {| st_dict := sdict_set (st_dict st2) "exp_latents_values" l;
           st_heap := st_heap st2 |}
  else Ret st2.

(** [for idx in indices: ... if target_only: break] (lines 130-163). *)
Fixpoint payload_loop (ds : dual_ds) (indices : list nat) (target_only : bool)
    (st : store) : outcome store :=
  match indices with
  | [] => Ret st
  | i :: rest =>
      let ntr := ds_len (dl_train ds) in
      let '(d, j) := if Nat.leb ntr i then (dl_test ds, i - ntr) else (dl_train ds, i) in
      it <- match nth_error (ds_items d) j with
            | Some it => Ret it
            | None => Exc IndexError
            end ;;
      st' <- register_item (dl_nbr_classes ds) st it ;;
      if target_only then Ret st' else payload_loop ds rest target_only st'
  end.

(** A value of the returned dict: a Python list, or a stacked tensor. *)
Inductive fval :=
| FList (l : list val)
| FTensor (t : tensor).

Fixpoint shape (t : tensor) : list nat :=
  match t with
  | TLeaf _ => []
  | TNode ts => length ts :: match ts with [] => [] | t0 :: _ => shape t0 end
  end.

(** [torch.stack(lvalue)]: all elements tensors of one shape. *)
Definition stack (l : list val) : outcome tensor :=
  ts <- fold_right (fun v acc =>
          match v, acc with
          | VTensor t, Ret ts => Ret (t :: ts)
          | VTensor _, e => e
          | _, _ => Exc TypeError
          end) (Ret []) l ;;
  match ts with
  | [] => Exc RuntimeError
  | t0 :: _ =>
      if forallb (fun t => bool_decide (shape t = shape t0)) ts
      then Ret (TNode ts) else Exc RuntimeError
  end.

(** Lines 165-167: [if not(isinstance(lvalue[0], torch.Tensor)): continue],
    else [sample_d[key] = torch.stack(lvalue)]. *)
Definition finalize_entry (lvalue : list val) : outcome fval :=
  match lvalue with
  | [] => Exc IndexError
  | VTensor _ :: _ => t <- stack lvalue ;; Ret (FTensor t)
  | _ => Ret (FList lvalue)
  end.

Fixpoint finalize_dict (h : list (list val)) (d : list (string * nat))
    : outcome (list (string * fval)) :=
  match d with
  | [] => Ret []
  | (k, l) :: d' =>
      v <- finalize_entry (heap_get h l) ;;
      rest <- finalize_dict h d' ;;
      Ret ((k, v) :: rest)
  end.

(** [sample_d["experiences"] = sample_d["experiences"].unsqueeze(1)] *)
Definition unsqueeze1 (v : fval) : outcome fval :=
  match v with
  | FTensor (TNode ts) => Ret (FTensor (TNode (map (fun t => TNode [t]) ts)))
  | FTensor (TLeaf _) => Exc IndexError
  | FList _ => Exc AttributeError
  end.

Definition unsqueeze_experiences (d : list (string * fval))
    : outcome (list (string * fval)) :=
  v <- lookup_or_keyerror d "experiences" ;;
  v' <- unsqueeze1 v ;;
  Ret (sdict_set d "experiences" v').

(** The dict returned by [sample]: its [so_indices] is the entry
    [sample_d["indices"]], the other entries are [so_payload]. *)
Record sample_out := {
  so_payload : list (string * fval);
  so_indices : list nat;
  so_events : list event
}.

(** The payload built for a list of chosen indices. *)
Definition build_payload (ds : dual_ds) (indices : list nat) (target_only : bool)
    : outcome (list (string * fval)) :=
  st <- payload_loop ds indices target_only init_store ;;
  d <- finalize_dict (st_heap st) (st_dict st) ;;
  unsqueeze_experiences d.

Definition sample (ds : dual_ds) (idx : nat) (from_class : option (list Z))
    (excepts : option (list nat)) (target_only : bool) (rs : nat -> nat)
    (fuel : nat) : outcome sample_out :=
  r <- sample_indices ds idx from_class excepts rs fuel ;;
  let '(indices, evs) := r in
  payload <- build_payload ds indices target_only ;;
  Ret {| so_payload := payload; so_indices := indices; so_events := evs |}.

(** [dataset[idx]] for a global index, as the loop over [indices] reads
    it (lines 132-137): the test dataset, shifted, from [len(train)] on. *)
Definition item_at (ds : dual_ds) (i : nat) : outcome item :=
  let ntr := ds_len (dl_train ds) in
  let '(d, j) := if Nat.leb ntr i then (dl_test ds, i - ntr) else (dl_train ds, i) in
  match nth_error (ds_items d) j with
  | Some it => Ret it
  | None => Exc IndexError
  end.

(** The ["exp_labels"] value of each item, for the items that have one. *)
Definition labels_of (its : list item) : list val :=
  flat_map (fun it => match sdict_get it "exp_labels"%string with
                      | Some v => [v]
                      | None => []
                      end) its.

(* ===================================================================== *)
(** ** ReferentialGame.train: the distractor curriculum *)
(* ===================================================================== *)

(** The configuration the curriculum reads: the dataset modes (the keys
    of [self.datasets], in order), [config['nbr_distractors']] and
    [config['curriculum_distractors_window_size']]. *)
Record curriculum_cfg := {
  cc_modes : list string;
  cc_max : list (string * nat);
  cc_window_size : nat
}.

(** [datasets[m].getNbrDistractors(mode=m)] for every mode [m], and the
    locals [windowed_accuracy] and [window_count]. *)
Record cstate := {
  cs_counts : list (string * nat);
  cs_wa : Q;
  cs_wc : nat
}.

(** Modelled from the spec: [Dataset.getNbrDistractors(mode)] of the base
    class (datasets/dataset.py, absent here) reads the currently
    configured distractor count of [mode]. *)
Definition getNbrDistractors (counts : list (string * nat)) (mode : string) : outcome nat :=
  lookup_or_keyerror counts mode.

(** Modelled from the spec: [Dataset.setNbrDistractors(n, mode)] of the
    base class sets the currently configured distractor count of [mode]. *)
Definition setNbrDistractors (counts : list (string * nat)) (n : nat) (mode : string)
    : list (string * nat) :=
  sdict_set counts mode n.

(** Lines 213-214: every mode starts at [init_curriculum_nbr_distractors]
    (the saved signal, or 1). *)
Definition curriculum_init (cfg : curriculum_cfg) (init : nat) : cstate :=
  {| cs_counts := fold_left (fun c m => setNbrDistractors c init m) (cc_modes cfg) [];
     cs_wa := 0%Q; cs_wc := 0 |}.

(** Lines 378-379: [for mode in self.datasets: setNbrDistractors(getNbrDistractors(mode)+1, mode)]. *)
Fixpoint increment_all (modes : list string) (counts : list (string * nat))
    : outcome (list (string * nat)) :=
  match modes with
  | [] => Ret counts
  | m :: modes' =>
      c <- getNbrDistractors counts m ;;
      increment_all modes' (setNbrDistractors counts (S c) m)
  end.

(** Lines 368-379, after a data batch of the loop whose variable is
    [mode], with [acc] the batch's accuracy. The inner [for mode in
    self.datasets] rebinds the loop variable, which ends as the last
    mode; the new value of the variable is returned. *)
Definition curriculum_step (cfg : curriculum_cfg) (mode : string) (acc : Q) (cs : cstate)
    : outcome (cstate * string) :=
  if str_contains "train" mode then
    nbr <- getNbrDistractors (cs_counts cs) mode ;;
    let wc1 := S (cs_wc cs) in
    let wa1 := ((cs_wa cs * inject_Z (Z.of_nat (cs_wc cs)) + acc) / inject_Z (Z.of_nat wc1))%Q in
    if negb (Qle_bool wa1 75%Q) && Nat.ltb (cc_window_size cfg) wc1 then
      mx <- lookup_or_keyerror (cc_max cfg) mode ;;
      if Nat.ltb nbr mx then
        counts' <- increment_all (cc_modes cfg) (cs_counts cs) ;;
        Ret ({| cs_counts := counts'; cs_wa := 0%Q; cs_wc := 0 |},
             default mode (last (cc_modes cfg)))
      else Ret ({| cs_counts := cs_counts cs; cs_wa := wa1; cs_wc := wc1 |}, mode)
    else Ret ({| cs_counts := cs_counts cs; cs_wa := wa1; cs_wc := wc1 |}, mode)
  else Ret (cs, mode).

(** The batches of one data loader, the loop variable threaded through. *)
Fixpoint curriculum_slot (cfg : curriculum_cfg) (mode : string) (accs : list Q)
    (cs : cstate) : outcome cstate :=
  match accs with
  | [] => Ret cs
  | acc :: accs' =>
      r <- curriculum_step cfg mode acc cs ;;
      let '(cs', mode') := r in
      curriculum_slot cfg mode' accs' cs'
  end.

(** One epoch: the data loaders in the order of the modes, each with the
    accuracies of its batches. *)
Fixpoint curriculum_epoch (cfg : curriculum_cfg) (slots : list (string * list Q))
    (cs : cstate) : outcome cstate :=
  match slots with
  | [] => Ret cs
  | (mode, accs) :: slots' =>
      cs' <- curriculum_slot cfg mode accs cs ;;
      curriculum_epoch cfg slots' cs'
  end.

Fixpoint curriculum_run (cfg : curriculum_cfg) (epochs : list (list (list Q)))
    (cs : cstate) : outcome cstate :=
  match epochs with
  | [] => Ret cs
  | accs :: epochs' =>
      cs' <- curriculum_epoch cfg (combine (cc_modes cfg) accs) cs ;;
      curriculum_run cfg epochs' cs'
  end.

(* ===================================================================== *)
(** ** ReferentialGame.train: one experience repetition *)
(* ===================================================================== *)

(** What the body of [for it_rep in range(nbr_experience_repetition)]
    does to the stream handler that the claims observe: writing
    ["signals:end_of_communication"] and serving a pipeline (recorded by
    its identifier, a key of [self.pipelines]). *)
Inductive tevent :=
| TSetEoc (b : bool)
| TServe (pipe_id : string).

Definition is_rg_pipe (pipe_id : string) : bool :=
  str_contains "referential_game" pipe_id.

(** [for pipe_id, pipeline in self.pipelines.items(): if ("referential_game"
    in pipe_id) = want: self.stream_handler.serve(pipeline)]. *)
Definition serve_pipes (pipes : list string) (want : bool) : list tevent :=
  map TServe (List.filter (fun pid => Bool.eqb (is_rg_pipe pid) want) pipes).

(** Lines 271-287: one communication round; [R] is
    [self.config['nbr_communication_round']]. *)
Definition comm_round (R : nat) (pipes : list string) (idx_round : nat) : list tevent :=
  TSetEoc (Nat.eqb idx_round (R - 1)) :: serve_pipes pipes true.

(** Lines 271-298: the round loop, then every other pipeline once. *)
Definition experience_repetition (R : nat) (pipes : list string) : list tevent :=
  flat_map (comm_round R pipes) (seq 0 R) ++ serve_pipes pipes false.

(** Number of times pipeline [p] is served in a trace. *)
Definition serve_count (p : string) (tr : list tevent) : nat :=
  length (List.filter (fun e => match e with TServe q => String.eqb p q | _ => false end) tr).

(** The successive values written to ["signals:end_of_communication"]. *)
Definition eoc_writes (tr : list tevent) : list bool :=
  flat_map (fun e => match e with TSetEoc b => [b] | _ => [] end) tr.

(* ===================================================================== *)
(** ** ReferentialGame.save and ReferentialGame.load *)
(* ===================================================================== *)

(** The four kinds of checkpoint artifacts; modules are named by their id. *)
Inductive artifact :=
| AConfig
| AModule (module_id : string)
| APipelines
| ASignals.

(** What a save or load does to an artifact: persist or restore it, or
    print the caught exception. *)
Inductive ckpt_action :=
| Done (a : artifact)
| Logged (a : artifact) (e : pyexc).

(** The actions performed, and the exception escaping the call, if any. *)
Definition io := (list ckpt_action * option pyexc)%type.

(** Running [x], then [y] unless [x] raised. *)
Definition io_seq (x y : io) : io :=
  match snd x with
  | Some _ => x
  | None => (fst x ++ fst y, snd y)
  end.

(** [try: <persist a> except Exception as e: print(...)]; [fails a] is the
    exception that persisting or restoring [a] raises, if any. *)
Definition guarded (fails : artifact -> option pyexc) (a : artifact) : io :=
  match fails a with
  | Some e => ([Logged a e], None)
  | None => ([Done a], None)
  end.

Definition save_config (fails : artifact -> option pyexc) : io := guarded fails AConfig.

(** Lines 96-104: the [try]/[except] around each module's save is
    commented out, so the first exception propagates. *)
Fixpoint save_modules (fails : artifact -> option pyexc) (modules : list string) : io :=
  match modules with
  | [] => ([], None)
  | module_id :: modules' =>
      match fails (AModule module_id) with
      | Some e => ([], Some e)
      | None => io_seq ([Done (AModule module_id)], None) (save_modules fails modules')
      end
  end.

Definition save_pipelines (fails : artifact -> option pyexc) : io := guarded fails APipelines.

Definition save_signals (fails : artifact -> option pyexc) : io := guarded fails ASignals.

(** Lines 74-87 (the directory creation is not an artifact). *)
Definition save (fails : artifact -> option pyexc) (modules : list string) : io :=
  io_seq (save_config fails)
    (io_seq (save_modules fails modules)
       (io_seq (save_pipelines fails) (save_signals fails))).

Definition load_config (fails : artifact -> option pyexc) : io := guarded fails AConfig.

(** Lines 141-151: one guarded [torch.load] per [*.pth] file found. *)
Fixpoint load_modules (fails : artifact -> option pyexc) (module_ids : list string) : io :=
  match module_ids with
  | [] => ([], None)
  | module_id :: ids' => io_seq (guarded fails (AModule module_id)) (load_modules fails ids')
  end.

Definition load_pipelines (fails : artifact -> option pyexc) : io := guarded fails APipelines.

Definition load_signals (fails : artifact -> option pyexc) : io := guarded fails ASignals.

(** Lines 121-128. *)
Definition load (fails : artifact -> option pyexc) (module_ids : list string) : io :=
  io_seq (load_config fails)
    (io_seq (load_modules fails module_ids)
       (io_seq (load_pipelines fails) (load_signals fails))).

(** An artifact is handled: persisted or restored, or its failure logged. *)
Definition handled (tr : list ckpt_action) (a : artifact) : Prop :=
  In (Done a) tr \/ exists e, In (Logged a e) tr.

(** Pointwise order on the configured counts: every mode that has a count
    in [c1] has one at least as large in [c2]. *)
Definition counts_le (c1 c2 : list (string * nat)) : Prop :=
  forall k n, sdict_get c1 k = Some n -> exists n', sdict_get c2 k = Some n' /\ n <= n'.

(** The count of mode [mtr] is within its configured maximum. *)
Definition train_capped (cfg : curriculum_cfg) (mtr : string) (cs : cstate) : Prop :=
  forall n mx, sdict_get (cs_counts cs) mtr = Some n ->
    sdict_get (cc_max cfg) mtr = Some mx -> n <= mx.

(** Every key of [sample_d] names an existing list. *)
Definition store_wf (st : store) : Prop :=
  forall k l, sdict_get (st_dict st) k = Some l -> l < length (st_heap st).

(** The shape of [sample_d] the loop over [indices] keeps: the four
    initial keys are present, ["exp_labels"] is the list at location 1 and
    no other key names that list. *)
Definition payload_inv (st : store) : Prop :=
  store_wf st /\
  sdict_get (st_dict st) "exp_labels" = Some 1 /\
  (forall k, sdict_get (st_dict st) k = Some 1 -> k = "exp_labels"%string) /\
  (exists l, sdict_get (st_dict st) "exp_latents" = Some l) /\
  (exists l, sdict_get (st_dict st) "exp_latents_values" = Some l).

(* ===================================================================== *)
(** ** DualLabeledDataset.__len__ *)
(* ===================================================================== *)

(** Lines 48-52: only the mode ["test"] itself counts the test dataset. *)
Definition DualLabeledDataset_len (ds : dual_ds) : nat :=
  if String.eqb (dl_mode ds) "test"%string then ds_len (dl_test ds)
  else ds_len (dl_train ds).

(* ===================================================================== *)
(** ** ReferentialGame.load_modules: module ids from file paths *)
(* ===================================================================== *)












(* ===================================================================== *)
(** ** ReferentialGame.train: the iteration counters *)
(* ===================================================================== *)











(* ===================================================================== *)
(** ** ReferentialGame.train: epochs and periodic saves *)
(* ===================================================================== *)




(* ===================================================================== *)
(** ** ReferentialGame.__init__ and train: the default config object *)
(* ===================================================================== *)







(* ===================================================================== *)
(** ** Concrete inputs *)
(* ===================================================================== *)

(** An item of a labeled dataset: a one-pixel image and its label. *)
Definition ex_item (label : Z) : item :=
  [("experiences", VTensor (TNode [TLeaf label])); ("exp_labels", VInt label)]%string.

(** Train classes [{0: [0;1;2], 1: [3;4]}]; one test item of class 2. *)
Definition ex_train : dataset :=
  {| ds_items := [ex_item 0; ex_item 0; ex_item 0; ex_item 1; ex_item 1];
     ds_getclass := fun i => if Nat.ltb i 3 then 0%Z else 1%Z |}.

Definition ex_test : dataset :=
  {| ds_items := [ex_item 2]; ds_getclass := fun _ => 2%Z |}.

Definition ex_ds : dual_ds :=
  DualLabeledDataset_init ex_train ex_test "train"
    [("train", 1); ("test", 1)]%string.

(** The same datasets with two distractors in train mode. *)
Definition ex_ds2 : dual_ds :=
  DualLabeledDataset_init ex_train ex_test "train"
    [("train", 2); ("test", 2)]%string.

(** Two modes; the training mode may reach three distractors, the test
    mode only one. *)
Definition ex_ccfg : curriculum_cfg :=
  {| cc_modes := ["train"; "test"]%string;
     cc_max := [("train", 3); ("test", 1)]%string;
     cc_window_size := 0 |}.

(** A module that has no [save] method and whose [torch.save] raises
    [OSError], everything else saving fine. *)
Definition ex_fails (a : artifact) : option pyexc :=
  match a with
  | AModule _ => Some OSError
  | _ => None
  end.

(** A train dataset of three items of class 0: the first has no label,
    the second the label 5, the third a label that is not an int. *)
Definition ex_bad_train : dataset :=
  {| ds_items :=
       [[("experiences", VTensor (TNode [TLeaf 0]))];
        [("experiences", VTensor (TNode [TLeaf 0])); ("exp_labels", VInt 5)];
        [("experiences", VTensor (TNode [TLeaf 0])); ("exp_labels", VOther "cat")]]%string;
     ds_getclass := fun _ => 0%Z |}.

(** Classes 0 and 2, so [nbr_classes = 2]; no distractors. *)
Definition ex_bad_ds : dual_ds :=
  DualLabeledDataset_init ex_bad_train ex_test "train" [("train", 0); ("test", 0)]%string.

(** The same datasets in a mode that contains ["test"] but is not ["test"]. *)
Definition ex_testlike_ds : dual_ds :=
  DualLabeledDataset_init ex_train ex_test "test_set" [("test_set", 1)]%string.




(* ===================================================================== *)
(** ** Properties of the index selection *)
(* ===================================================================== *)

Section Draw.

Variable rs : nat -> nat.

(** Drawing [n] times without replacement from a set of at least [n]
    elements appends [n] distinct elements of the set. *)
Lemma draw_spec (n : nat) : forall (s : gset nat) (acc : list nat) (k : nat),
  n <= size s ->
  exists l, draw rs k n s acc = Ret (acc ++ l) /\ length l = n /\ NoDup l /\
            (forall x, x ∈ l -> x ∈ s).
Proof.
  induction n as [|n IH]; intros s acc k Hn.
  - exists []. rewrite app_nil_r. split; [reflexivity|].
    split; [reflexivity|]. split; [constructor|]. intros x Hx. inversion Hx.
  - cbn [draw]. destruct (elements s) as [|y ys] eqn:He.
    + exfalso. unfold size, set_size in Hn. simpl in Hn. rewrite He in Hn. simpl in Hn. lia.
    + set (L := y :: ys) in *.
      set (chosen := nth (rs k mod length L) L 0).
      assert (Hin : chosen ∈ s).
      { apply elem_of_elements. rewrite He. apply list_elem_of_In.
        apply nth_In. apply Nat.mod_upper_bound. simpl. lia. }
      assert (Hsz : n <= size (s ∖ {[chosen]})).
      { rewrite size_difference by set_solver. rewrite size_singleton. lia. }
      destruct (IH (s ∖ {[chosen]}) (acc ++ [chosen]) (S k) Hsz)
        as (l & Hd & Hlen & Hnd & Hsub).
      exists (chosen :: l). split.
      { rewrite Hd, <- app_assoc. reflexivity. }
      split; [simpl; lia|]. split.
      * constructor; [|exact Hnd]. intros Hc. specialize (Hsub _ Hc). set_solver.
      * intros x Hx. apply elem_of_cons in Hx as [->|Hx]; [exact Hin|].
        specialize (Hsub _ Hx). set_solver.
Qed.

End Draw.

(** The first pass of the loop ends it when the working set minus the
    target is large enough. *)
Lemma sample_loop_first_pass fuel cls nd mode idx from_class excepts evs n U :
  sdict_get nd mode = Some n ->
  union_classes cls ∅ (first_candidates cls from_class) = Ret U ->
  idx ∈ remove_excepts U excepts ->
  n <= size (remove_excepts U excepts ∖ {[idx]}) ->
  sample_loop (S fuel) cls nd mode idx from_class false excepts evs
  = Ret (remove_excepts U excepts ∖ {[idx]}, n, evs).
Proof.
  intros Hn HU Hin Hsz. simpl.
  replace (match from_class with Some l => l | None => dict_keys cls end)
    with (first_candidates cls from_class) by (destruct from_class; reflexivity).
  rewrite HU. simpl. rewrite Hn. simpl.
  rewrite decide_True by exact Hin.
  destruct (Nat.ltb_spec (size (remove_excepts U excepts ∖ {[idx]})) n); [lia|].
  reflexivity.
Qed.

Lemma remove_excepts_not_in (U : gset nat) (ex : list nat) (i : nat) :
  i ∈ remove_excepts U (Some ex) -> ~ In i ex.
Proof.
  simpl. intros Hi Hin. apply list_elem_of_In in Hin. set_solver.
Qed.

(** What [sample] returns under ["indices"] is what the index selection
    chose. *)
Lemma sample_indices_returned ds idx from_class excepts target_only rs fuel
    indices evs out :
  sample_indices ds idx from_class excepts rs fuel = Ret (indices, evs) ->
  sample ds idx from_class excepts target_only rs fuel = Ret out ->
  so_indices out = indices /\ so_events out = evs.
Proof.
  intros Hi Hs. unfold sample in Hs. rewrite Hi in Hs. simpl in Hs.
  destruct (build_payload ds indices target_only); inversion Hs; auto.
Qed.

(** The index selection when the first pass suffices. *)
Lemma sample_indices_sufficient (ds : dual_ds) (idx : nat)
    (from_class : option (list Z)) (excepts : option (list nat))
    (rs : nat -> nat) (fuel n : nat) (U : gset nat) :
  sdict_get (dl_nbr_distractors ds) (dl_mode ds) = Some n ->
  union_classes (active_classes ds) ∅
    (first_candidates (active_classes ds) from_class) = Ret U ->
  target_global ds idx ∈ remove_excepts U excepts ->
  n <= size (remove_excepts U excepts ∖ {[target_global ds idx]}) ->
  1 <= fuel ->
  exists l,
    sample_indices ds idx from_class excepts rs fuel = Ret (target_global ds idx :: l, []) /\
    length l = n /\ NoDup l /\
    (forall x, x ∈ l -> x ∈ remove_excepts U excepts ∖ {[target_global ds idx]}).
Proof.
  intros Hn HU Hin Hsz Hf.
  destruct fuel as [|fuel]; [lia|].
  set (g := target_global ds idx) in *.
  set (W := remove_excepts U excepts) in *.
  destruct (draw_spec rs n (W ∖ {[g]}) [g] 0 Hsz) as (l & Hd & Hlen & Hnd & Hsub).
  exists l. split; [|split; [exact Hlen|split; [exact Hnd|exact Hsub]]].
  unfold sample_indices. fold g.
  rewrite (sample_loop_first_pass fuel _ _ _ g from_class excepts [] n U Hn HU Hin Hsz).
  cbn [obind]. fold W. rewrite Hd. reflexivity.
Qed.

(** C1: if the working index set of the first pass (the union of the
    candidate classes' indices minus the excluded indices) holds the
    target and, without the target, at least the mode's distractor count
    [n] of indices, [sample] chooses [1 + n] indices, the target first,
    pairwise distinct and none excluded; they are the ["indices"] entry
    of what [sample] returns. *)
Theorem sample_indices_target_first_distinct (ds : dual_ds) (idx : nat)
    (from_class : option (list Z)) (excepts : option (list nat))
    (rs : nat -> nat) (fuel n : nat) (U : gset nat) :
  sdict_get (dl_nbr_distractors ds) (dl_mode ds) = Some n ->
  union_classes (active_classes ds) ∅
    (first_candidates (active_classes ds) from_class) = Ret U ->
  target_global ds idx ∈ remove_excepts U excepts ->
  n <= size (remove_excepts U excepts ∖ {[target_global ds idx]}) ->
  1 <= fuel ->
  exists indices evs,
    sample_indices ds idx from_class excepts rs fuel = Ret (indices, evs) /\
    length indices = 1 + n /\
    head indices = Some (target_global ds idx) /\
    NoDup indices /\
    (forall ex i, excepts = Some ex -> In i indices -> ~ In i ex) /\
    (forall target_only out,
        sample ds idx from_class excepts target_only rs fuel = Ret out ->
        so_indices out = indices).
Proof.
  intros Hn HU Hin Hsz Hf.
  destruct (sample_indices_sufficient ds idx from_class excepts rs fuel n U Hn HU Hin Hsz Hf)
    as (l & Hsi & Hlen & Hnd & Hsub).
  set (g := target_global ds idx) in *.
  exists (g :: l), []. split; [exact Hsi|].
  split; [simpl; lia|]. split; [reflexivity|]. split.
  - constructor; [|exact Hnd]. intros Hg. specialize (Hsub _ Hg). set_solver.
  - split.
    + intros ex i -> Hi. destruct Hi as [<-|Hi].
      * exact (remove_excepts_not_in U ex _ Hin).
      * apply list_elem_of_In in Hi. specialize (Hsub _ Hi).
        apply (remove_excepts_not_in U ex). set_solver.
    + intros target_only out Hs.
      exact (proj1 (sample_indices_returned _ _ _ _ _ _ _ _ _ _ Hsi Hs)).
Qed.

(** Closes the hypotheses of a theorem at a concrete input. *)
Ltac by_eval := vm_compute; first [reflexivity | lia | idtac].

Lemma sample_indices_target_first_distinct_witness :
  sdict_get (dl_nbr_distractors ex_ds) (dl_mode ex_ds) = Some 1 /\
  union_classes (active_classes ex_ds) ∅
    (first_candidates (active_classes ex_ds) None) = Ret (list_to_set [0; 1; 2; 3; 4]) /\
  target_global ex_ds 0 ∈ remove_excepts (list_to_set [0; 1; 2; 3; 4]) (Some []) /\
  1 <= size (remove_excepts (list_to_set [0; 1; 2; 3; 4]) (Some []) ∖ {[target_global ex_ds 0]}) /\
  exists indices evs,
    sample_indices ex_ds 0 None (Some []) (fun k => k) 1 = Ret (indices, evs) /\
    length indices = 2 /\ head indices = Some 0 /\ NoDup indices /\
    (forall ex i, Some [] = Some ex -> In i indices -> ~ In i ex) /\
    (forall target_only out,
        sample ex_ds 0 None (Some []) target_only (fun k => k) 1 = Ret out ->
        so_indices out = indices).
Proof.
  assert (H1 : sdict_get (dl_nbr_distractors ex_ds) (dl_mode ex_ds) = Some 1) by by_eval.
  assert (H2 : union_classes (active_classes ex_ds) ∅
    (first_candidates (active_classes ex_ds) None) = Ret (list_to_set [0; 1; 2; 3; 4])) by by_eval.
  assert (H3 : target_global ex_ds 0 ∈ remove_excepts (list_to_set [0; 1; 2; 3; 4]) (Some [])) by by_eval.
  assert (H4 : 1 <= size (remove_excepts (list_to_set [0; 1; 2; 3; 4]) (Some []) ∖ {[target_global ex_ds 0]})) by by_eval.
  split; [exact H1|]. split; [exact H2|]. split; [exact H3|]. split; [exact H4|].
  exact (sample_indices_target_first_distinct ex_ds 0 None (Some []) (fun k => k) 1 1
           (list_to_set [0; 1; 2; 3; 4]) H1 H2 H3 H4 (le_n 1)).
Defined.

(** The code's [set_indices.remove(idx)] under its [try]: the working set
    without the target, whether the removal succeeded or not. *)
Lemma remove_target_either (W : gset nat) (g : nat) :
  (if decide (g ∈ W) then W ∖ {[g]} else W) = W ∖ {[g]}.
Proof. destruct (decide (g ∈ W)); set_solver. Qed.

(** One pass of the loop, once the union and the count are known. *)
Lemma sample_loop_pass fuel (cls : list (Z * list nat)) (nd : list (string * nat))
    (mode : string) (g : nat) (from_class : option (list Z)) (not_enough : bool)
    (excepts : option (list nat)) (evs : list event) (U : gset nat) (n : nat) :
  union_classes cls ∅ (match from_class with
                       | Some l => if not_enough then dict_keys cls else l
                       | None => dict_keys cls
                       end) = Ret U ->
  sdict_get nd mode = Some n ->
  sample_loop (S fuel) cls nd mode g from_class not_enough excepts evs =
  (let W := remove_excepts U excepts in
   let evs1 := if decide (g ∈ W) then evs
               else evs ++ [EvRemoveTargetFailed; EvDebuggerBreak] in
   if Nat.ltb (size (W ∖ {[g]})) n
   then sample_loop fuel cls nd mode g
          (Some (match from_class with
                 | Some l => if not_enough then dict_keys cls else l
                 | None => dict_keys cls
                 end)) true excepts (evs1 ++ [EvWarnNotEnough])
   else Ret (W ∖ {[g]}, n, evs1)).
Proof.
  intros HU Hn. cbn [sample_loop]. rewrite HU. cbn [obind]. rewrite Hn. cbn [obind].
  destruct (decide (g ∈ remove_excepts U excepts)) as [Hg|Hg]; [reflexivity|].
  rewrite <- (remove_target_either (remove_excepts U excepts) g).
  rewrite decide_False by exact Hg. reflexivity.
Qed.

(** C2: when the caller's candidate classes give a working set (without
    the target) smaller than the distractor count [n], but all classes of
    the active partition map give one of at least [n], [sample] warns,
    retries with all classes, and still chooses [1 + n] indices, the
    target first and the distractors from the widened working set. *)
Theorem sample_indices_fallback_all_classes (ds : dual_ds) (idx : nat)
    (from_class : list Z) (excepts : option (list nat))
    (rs : nat -> nat) (fuel n : nat) (U1 U2 : gset nat) :
  sdict_get (dl_nbr_distractors ds) (dl_mode ds) = Some n ->
  union_classes (active_classes ds) ∅ from_class = Ret U1 ->
  size (remove_excepts U1 excepts ∖ {[target_global ds idx]}) < n ->
  union_classes (active_classes ds) ∅ (dict_keys (active_classes ds)) = Ret U2 ->
  n <= size (remove_excepts U2 excepts ∖ {[target_global ds idx]}) ->
  2 <= fuel ->
  exists indices evs,
    sample_indices ds idx (Some from_class) excepts rs fuel = Ret (indices, evs) /\
    length indices = 1 + n /\
    head indices = Some (target_global ds idx) /\
    In EvWarnNotEnough evs /\
    (forall i, In i (tail indices) ->
       i ∈ remove_excepts U2 excepts ∖ {[target_global ds idx]}) /\
    (forall target_only out,
        sample ds idx (Some from_class) excepts target_only rs fuel = Ret out ->
        so_indices out = indices).
Proof.
  intros Hn HU1 Hlt HU2 Hsz Hf.
  destruct fuel as [|[|fuel]]; [lia|lia|].
  set (g := target_global ds idx) in *.
  set (W1 := remove_excepts U1 excepts) in *.
  set (W2 := remove_excepts U2 excepts) in *.
  destruct (draw_spec rs n (W2 ∖ {[g]}) [g] 0 Hsz) as (l & Hd & Hlen & Hnd & Hsub).
  set (evs1 := if decide (g ∈ W1) then []
               else [] ++ [EvRemoveTargetFailed; EvDebuggerBreak]).
  set (evs2 := if decide (g ∈ W2) then evs1 ++ [EvWarnNotEnough]
               else (evs1 ++ [EvWarnNotEnough]) ++ [EvRemoveTargetFailed; EvDebuggerBreak]).
  assert (Hsi : sample_indices ds idx (Some from_class) excepts rs (S (S fuel))
                = Ret (g :: l, evs2)).
  { unfold sample_indices. fold g.
    rewrite (sample_loop_pass (S fuel) _ _ _ g (Some from_class) false excepts [] U1 n HU1 Hn).
    cbv zeta. fold W1. fold evs1.
    assert (Hb1 : Nat.ltb (size (W1 ∖ {[g]})) n = true) by (apply Nat.ltb_lt; exact Hlt).
    rewrite Hb1.
    rewrite (sample_loop_pass fuel (active_classes ds) _ _ g (Some from_class) true excepts _ U2 n HU2 Hn).
    cbv zeta. fold W2. fold evs2.
    assert (Hb2 : Nat.ltb (size (W2 ∖ {[g]})) n = false) by (apply Nat.ltb_ge; exact Hsz).
    rewrite Hb2. cbn [obind]. rewrite Hd. reflexivity. }
  exists (g :: l), evs2. split; [exact Hsi|].
  split; [simpl; lia|]. split; [reflexivity|]. split.
  - unfold evs2. destruct (decide (g ∈ W2)).
    + apply in_or_app. right. left. reflexivity.
    + apply in_or_app. left. apply in_or_app. right. left. reflexivity.
  - split.
    + intros i Hi. apply Hsub. apply list_elem_of_In. exact Hi.
    + intros target_only out Hs.
      exact (proj1 (sample_indices_returned _ _ _ _ _ _ _ _ _ _ Hsi Hs)).
Qed.

Lemma sample_indices_fallback_all_classes_witness :
  sdict_get (dl_nbr_distractors ex_ds2) (dl_mode ex_ds2) = Some 2 /\
  union_classes (active_classes ex_ds2) ∅ [1%Z] = Ret (list_to_set [3; 4]) /\
  size (remove_excepts (list_to_set [3; 4]) None ∖ {[target_global ex_ds2 3]}) < 2 /\
  union_classes (active_classes ex_ds2) ∅ (dict_keys (active_classes ex_ds2))
    = Ret (list_to_set [0; 1; 2; 3; 4]) /\
  2 <= size (remove_excepts (list_to_set [0; 1; 2; 3; 4]) None ∖ {[target_global ex_ds2 3]}) /\
  exists indices evs,
    sample_indices ex_ds2 3 (Some [1%Z]) None (fun k => k) 2 = Ret (indices, evs) /\
    length indices = 3 /\ head indices = Some 3 /\ In EvWarnNotEnough evs /\
    (forall i, In i (tail indices) ->
       i ∈ remove_excepts (list_to_set [0; 1; 2; 3; 4]) None ∖ {[target_global ex_ds2 3]}) /\
    (forall target_only out,
        sample ex_ds2 3 (Some [1%Z]) None target_only (fun k => k) 2 = Ret out ->
        so_indices out = indices).
Proof.
  assert (H1 : sdict_get (dl_nbr_distractors ex_ds2) (dl_mode ex_ds2) = Some 2) by by_eval.
  assert (H2 : union_classes (active_classes ex_ds2) ∅ [1%Z] = Ret (list_to_set [3; 4])) by by_eval.
  assert (H3 : size (remove_excepts (list_to_set [3; 4]) None ∖ {[target_global ex_ds2 3]}) < 2)
    by by_eval.
  assert (H4 : union_classes (active_classes ex_ds2) ∅ (dict_keys (active_classes ex_ds2))
                 = Ret (list_to_set [0; 1; 2; 3; 4])) by by_eval.
  assert (H5 : 2 <= size (remove_excepts (list_to_set [0; 1; 2; 3; 4]) None
                            ∖ {[target_global ex_ds2 3]})) by by_eval.
  split; [exact H1|]. split; [exact H2|]. split; [exact H3|]. split; [exact H4|].
  split; [exact H5|].
  exact (sample_indices_fallback_all_classes ex_ds2 3 [1%Z] None (fun k => k) 2 2
           (list_to_set [3; 4]) (list_to_set [0; 1; 2; 3; 4]) H1 H2 H3 H4 H5 (le_n 2)).
Defined.

(* ===================================================================== *)
(** ** Properties of the partition maps *)
(* ===================================================================== *)

Section DictLemmas.

Context {V : Type}.

Lemma dict_get_set (d : list (Z * V)) (k k' : Z) (v : V) :
  dict_get (dict_set d k v) k' = if Z.eqb k' k then Some v else dict_get d k'.
Proof.
  induction d as [|[k0 v0] d IH]; simpl.
  - reflexivity.
  - destruct (Z.eqb_spec k k0) as [->|Hne]; simpl.
    + destruct (Z.eqb_spec k' k0); reflexivity.
    + rewrite IH. destruct (Z.eqb_spec k' k0); destruct (Z.eqb_spec k' k); congruence.
Qed.

Lemma dict_keys_set_incl (d : list (Z * V)) (k k' : Z) (v : V) :
  In k' (dict_keys (dict_set d k v)) -> k' = k \/ In k' (dict_keys d).
Proof.
  induction d as [|[k0 v0] d IH]; simpl.
  - intros [H|[]]. left. symmetry. exact H.
  - destruct (Z.eqb_spec k k0) as [->|Hne]; simpl.
    + intros [H|H]; [left; symmetry; exact H|right; right; exact H].
    + intros [H|H]; [right; left; exact H|].
      destruct (IH H); [left|right; right]; assumption.
Qed.

Lemma dict_set_nodup (d : list (Z * V)) (k : Z) (v : V) :
  NoDup (dict_keys d) -> NoDup (dict_keys (dict_set d k v)).
Proof.
  induction d as [|[k0 v0] d IH]; simpl; intros Hnd.
  - constructor; [apply not_elem_of_nil|constructor].
  - inversion Hnd as [|? ? Hn0 Hnd']; subst.
    destruct (Z.eqb_spec k k0) as [->|Hne]; simpl.
    + constructor; assumption.
    + constructor; [|exact (IH Hnd')].
      intros Hin. apply list_elem_of_In in Hin.
      destruct (dict_keys_set_incl d k k0 v Hin) as [|Hin']; [congruence|].
      apply Hn0. apply list_elem_of_In. exact Hin'.
Qed.

Lemma dict_get_in (d : list (Z * V)) (k : Z) (v : V) :
  dict_get d k = Some v -> In k (dict_keys d).
Proof.
  induction d as [|[k0 v0] d IH]; simpl; [discriminate|].
  destruct (Z.eqb_spec k k0) as [->|]; [left; reflexivity|].
  intros H. right. exact (IH H).
Qed.

Lemma dict_get_not_in (d : list (Z * V)) (k : Z) :
  ~ In k (dict_keys d) -> dict_get d k = None.
Proof.
  destruct (dict_get d k) eqn:E; [|reflexivity].
  intros Hn. exfalso. exact (Hn (dict_get_in d k v E)).
Qed.

End DictLemmas.

Lemma add_to_class_get (cls : list (Z * list nat)) (c cl : Z) (i : nat) :
  dict_get (add_to_class cls c i) cl =
  if Z.eqb cl c then Some (default [] (dict_get cls c) ++ [i]) else dict_get cls cl.
Proof.
  unfold add_to_class. rewrite dict_get_set.
  destruct (dict_get cls c) eqn:E.
  - rewrite E. reflexivity.
  - rewrite !dict_get_set, Z.eqb_refl. simpl.
    destruct (Z.eqb cl c); reflexivity.
Qed.

Lemma add_to_class_nodup (cls : list (Z * list nat)) (c : Z) (i : nat) :
  NoDup (dict_keys cls) -> NoDup (dict_keys (add_to_class cls c i)).
Proof.
  intros H. unfold add_to_class. apply dict_set_nodup.
  destruct (dict_get cls c); [exact H|]. apply dict_set_nodup. exact H.
Qed.

(** The class loop of [__init__] from a map [D], over the indices [l]. *)
Lemma build_loop_get (f : nat -> Z) (off : nat) (l : list nat) :
  forall (D : list (Z * list nat)) (cl : Z),
  dict_get (fold_left (fun cls idx => add_to_class cls (f idx) (off + idx)) l D) cl =
  let xs := map (fun i => off + i) (List.filter (fun i => Z.eqb (f i) cl) l) in
  match dict_get D cl with
  | Some v => Some (v ++ xs)
  | None => match xs with [] => None | _ => Some xs end
  end.
Proof.
  induction l as [|i l IH]; intros D cl; simpl.
  - destruct (dict_get D cl); [rewrite app_nil_r|]; reflexivity.
  - rewrite IH, add_to_class_get.
    destruct (Z.eqb_spec cl (f i)) as [->|Hne].
    + rewrite Z.eqb_refl. simpl.
      destruct (dict_get D (f i)); simpl; [rewrite <- app_assoc|]; reflexivity.
    + replace (Z.eqb (f i) cl) with false by (symmetry; apply Z.eqb_neq; congruence).
      reflexivity.
Qed.

Lemma build_classes_nodup (d : dataset) (off : nat) :
  NoDup (dict_keys (build_classes d off)).
Proof.
  unfold build_classes.
  assert (H : forall (l : list nat) (D : list (Z * list nat)), NoDup (dict_keys D) ->
    NoDup (dict_keys (fold_left (fun cls idx =>
                        add_to_class cls (ds_getclass d idx) (off + idx)) l D))).
  { induction l as [|i l IH]; intros D HD; simpl; [exact HD|].
    apply IH. apply add_to_class_nodup. exact HD. }
  apply H. constructor.
Qed.

(** The class map of one dataset: each class's indices, shifted, in order. *)
Lemma build_classes_get (d : dataset) (off : nat) (cl : Z) :
  dict_get (build_classes d off) cl =
  let xs := map (fun i => off + i)
              (List.filter (fun i => Z.eqb (ds_getclass d i) cl) (seq 0 (ds_len d))) in
  match xs with [] => None | _ => Some xs end.
Proof. unfold build_classes. rewrite build_loop_get. reflexivity. Qed.

Lemma merge_inner_get (cl c : Z) (idxs : list nat) :
  forall (T : list (Z * list nat)),
  dict_get (fold_left (fun tc i => dict_set tc c (default [] (dict_get tc c) ++ [i]))
                      idxs T) cl =
  if Z.eqb cl c then
    match idxs with
    | [] => dict_get T cl
    | _ => Some (default [] (dict_get T c) ++ idxs)
    end
  else dict_get T cl.
Proof.
  induction idxs as [|i idxs IH]; intros T; simpl.
  - destruct (Z.eqb cl c); reflexivity.
  - rewrite IH. rewrite !dict_get_set.
    destruct (Z.eqb_spec cl c) as [->|]; rewrite ?Z.eqb_refl; simpl; [|reflexivity].
    destruct idxs; [reflexivity|]. rewrite <- app_assoc. reflexivity.
Qed.

(** Merging a map with unique keys into [T]: each of its classes gets its
    indices appended to [T]'s entry (created if missing). *)
Lemma merge_get (train : list (Z * list nat)) :
  NoDup (dict_keys train) ->
  forall (T : list (Z * list nat)) (cl : Z),
  dict_get (merge_train_into_test train T) cl =
  match dict_get train cl with
  | Some tr => Some (default [] (dict_get T cl) ++ tr)
  | None => dict_get T cl
  end.
Proof.
  unfold merge_train_into_test.
  induction train as [|[c idxs] rest IH]; intros Hnd T cl; [reflexivity|].
  inversion Hnd as [|? ? Hc Hnd']; subst.
  cbn [fold_left]. rewrite (IH Hnd'). rewrite merge_inner_get. simpl.
  assert (Hrest : dict_get rest c = None).
  { apply dict_get_not_in. intros Hin. apply Hc. apply list_elem_of_In. exact Hin. }
  set (T1 := match dict_get T c with
             | Some _ => T
             | None => dict_set T c []
             end).
  assert (HT1c : dict_get T1 c = Some (default [] (dict_get T c))).
  { unfold T1. destruct (dict_get T c) eqn:E; [exact E|].
    rewrite dict_get_set, Z.eqb_refl. reflexivity. }
  assert (HT1 : forall k, k <> c -> dict_get T1 k = dict_get T k).
  { intros k Hk. unfold T1. destruct (dict_get T c); [reflexivity|].
    rewrite dict_get_set. apply Z.eqb_neq in Hk. rewrite Hk. reflexivity. }
  destruct (Z.eqb_spec cl c) as [->|Hne].
  - rewrite Hrest. destruct idxs as [|i idxs].
    + rewrite HT1c, app_nil_r. reflexivity.
    + rewrite HT1c. reflexivity.
  - rewrite (HT1 cl Hne). destruct idxs; reflexivity.
Qed.

Lemma filter_all_false {A} (f : A -> bool) (l : list A) :
  (forall x, In x l -> f x = false) -> List.filter f l = [].
Proof.
  induction l as [|x l IH]; intros H; [reflexivity|]. simpl.
  rewrite (H x (or_introl eq_refl)). apply IH. intros y Hy. apply H. right. exact Hy.
Qed.

(** C4: after construction, every class of the train map is a class of
    the test map, whose entry is the test indices of that class (shifted
    by the train length) followed by all the class's train indices,
    unshifted; the train map holds exactly the train classes, so a class
    no train item has (a test-only class) is absent from it. *)
Theorem init_test_map_contains_train_classes (train test : dataset) (mode : string)
    (nbr_distractors : list (string * nat)) :
  let ds := DualLabeledDataset_init train test mode nbr_distractors in
  (forall (cl : Z) (tr : list nat),
     dict_get (dl_train_classes ds) cl = Some tr ->
     tr = List.filter (fun i => Z.eqb (ds_getclass train i) cl) (seq 0 (ds_len train)) /\
     dict_get (dl_test_classes ds) cl =
       Some (default [] (dict_get (build_classes test (ds_len train)) cl) ++ tr)) /\
  (forall cl : Z,
     (forall i, i < ds_len train -> ds_getclass train i <> cl) ->
     dict_get (dl_train_classes ds) cl = None).
Proof.
  simpl. split.
  - intros cl tr Htr. split.
    + rewrite build_classes_get in Htr. simpl in Htr. rewrite map_id in Htr.
      destruct (List.filter _ _); congruence.
    + rewrite (merge_get _ (build_classes_nodup train 0)). rewrite Htr. reflexivity.
  - intros cl Hcl. rewrite build_classes_get. simpl.
    replace (List.filter (fun i => Z.eqb (ds_getclass train i) cl) (seq 0 (ds_len train)))
      with (@nil nat); [reflexivity|].
    symmetry. apply filter_all_false. intros i Hi. apply in_seq in Hi.
    apply Z.eqb_neq. apply Hcl. lia.
Qed.

Lemma init_test_map_contains_train_classes_witness :
  dict_get (dl_train_classes ex_ds) 0%Z = Some [0; 1; 2] /\
  dict_get (dl_test_classes ex_ds) 0%Z =
    Some (default [] (dict_get (build_classes ex_test 5) 0%Z) ++ [0; 1; 2]) /\
  dict_get (dl_train_classes ex_ds) 2%Z = None.
Proof.
  destruct (init_test_map_contains_train_classes ex_train ex_test "train"
              [("train", 1); ("test", 1)]%string) as [H1 H2].
  assert (Htr : dict_get (dl_train_classes ex_ds) 0%Z = Some [0; 1; 2]) by by_eval.
  split; [exact Htr|]. split.
  - exact (proj2 (H1 0%Z [0; 1; 2] Htr)).
  - apply H2. intros i Hi. simpl. destruct (Nat.ltb i 3); discriminate.
Defined.

(** C5, as the claim states it, fails: with the target (index 3, of
    class 1) outside the candidate class 0, [sample] does not raise; it
    records the failed removal and the breakpoint, then returns. *)
Lemma sample_target_missing_no_error :
  exists out,
    sample ex_ds 3 (Some [0%Z]) None false (fun k => k) 2 = Ret out /\
    so_events out = [EvRemoveTargetFailed; EvDebuggerBreak] /\
    head (so_indices out) = Some 3.
Proof. vm_compute. eexists. split; [reflexivity|]. split; reflexivity. Qed.

(** C5 (amended): when the target is not in the working set, the failed
    removal is caught, printed, and followed by an [ipdb.set_trace()]
    breakpoint; resumed, [sample] goes on: with a working set of at least
    [n] indices it chooses [1 + n] distinct indices, the target first. *)
Theorem sample_indices_target_missing_breakpoint (ds : dual_ds) (idx : nat)
    (from_class : option (list Z)) (excepts : option (list nat))
    (rs : nat -> nat) (fuel n : nat) (U : gset nat) :
  sdict_get (dl_nbr_distractors ds) (dl_mode ds) = Some n ->
  union_classes (active_classes ds) ∅
    (first_candidates (active_classes ds) from_class) = Ret U ->
  target_global ds idx ∉ remove_excepts U excepts ->
  n <= size (remove_excepts U excepts) ->
  1 <= fuel ->
  exists indices,
    sample_indices ds idx from_class excepts rs fuel
      = Ret (indices, [EvRemoveTargetFailed; EvDebuggerBreak]) /\
    length indices = 1 + n /\
    head indices = Some (target_global ds idx) /\
    NoDup indices.
Proof.
  intros Hn HU Hg Hsz Hf.
  destruct fuel as [|fuel]; [lia|].
  set (g := target_global ds idx) in *.
  set (W := remove_excepts U excepts) in *.
  assert (HW : W ∖ {[g]} = W) by set_solver.
  assert (Hsz' : n <= size (W ∖ {[g]})) by (rewrite HW; exact Hsz).
  destruct (draw_spec rs n (W ∖ {[g]}) [g] 0 Hsz') as (l & Hd & Hlen & Hnd & Hsub).
  exists (g :: l). split.
  - unfold sample_indices. fold g.
    rewrite (sample_loop_pass fuel (active_classes ds) _ _ g from_class false excepts [] U n
               ltac:(destruct from_class; exact HU) Hn).
    cbv zeta. fold W. rewrite decide_False by exact Hg.
    assert (Hb : Nat.ltb (size (W ∖ {[g]})) n = false) by (apply Nat.ltb_ge; exact Hsz').
    rewrite Hb. cbn [obind]. rewrite Hd. reflexivity.
  - split; [simpl; lia|]. split; [reflexivity|].
    constructor; [|exact Hnd]. intros Hgl. specialize (Hsub _ Hgl). set_solver.
Qed.

Lemma sample_indices_target_missing_breakpoint_witness :
  sdict_get (dl_nbr_distractors ex_ds) (dl_mode ex_ds) = Some 1 /\
  union_classes (active_classes ex_ds) ∅
    (first_candidates (active_classes ex_ds) (Some [0%Z])) = Ret (list_to_set [0; 1; 2]) /\
  (target_global ex_ds 3 ∉ remove_excepts (list_to_set [0; 1; 2]) None) /\
  1 <= size (remove_excepts (list_to_set [0; 1; 2]) None) /\
  exists indices,
    sample_indices ex_ds 3 (Some [0%Z]) None (fun k => k) 1
      = Ret (indices, [EvRemoveTargetFailed; EvDebuggerBreak]) /\
    length indices = 2 /\ head indices = Some 3 /\ NoDup indices.
Proof.
  assert (H1 : sdict_get (dl_nbr_distractors ex_ds) (dl_mode ex_ds) = Some 1) by by_eval.
  assert (H2 : union_classes (active_classes ex_ds) ∅
    (first_candidates (active_classes ex_ds) (Some [0%Z])) = Ret (list_to_set [0; 1; 2]))
    by by_eval.
  assert (H3 : target_global ex_ds 3 ∉ remove_excepts (list_to_set [0; 1; 2]) None).
  { intros Hin. vm_compute in Hin. discriminate Hin. }
  assert (H4 : 1 <= size (remove_excepts (list_to_set [0; 1; 2]) None)) by by_eval.
  split; [exact H1|]. split; [exact H2|]. split; [exact H3|]. split; [exact H4|].
  exact (sample_indices_target_missing_breakpoint ex_ds 3 (Some [0%Z]) None (fun k => k) 1 1
           (list_to_set [0; 1; 2]) H1 H2 H3 H4 (le_n 1)).
Defined.

(* ===================================================================== *)
(** ** Properties of the per-item payload *)
(* ===================================================================== *)

Section SDictLemmas.

Context {V : Type}.

Lemma sdict_get_set (d : list (string * V)) (k k' : string) (v : V) :
  sdict_get (sdict_set d k v) k' = if String.eqb k' k then Some v else sdict_get d k'.
Proof.
  induction d as [|[k0 v0] d IH]; simpl; [reflexivity|].
  destruct (String.eqb_spec k k0) as [->|Hne]; simpl.
  - destruct (String.eqb_spec k' k0); reflexivity.
  - rewrite IH. destruct (String.eqb_spec k' k0); destruct (String.eqb_spec k' k); congruence.
Qed.

Lemma sdict_get_app (d1 d2 : list (string * V)) (k : string) :
  sdict_get (d1 ++ d2) k =
  match sdict_get d1 k with Some v => Some v | None => sdict_get d2 k end.
Proof.
  induction d1 as [|[k0 v0] d1 IH]; simpl; [reflexivity|].
  destruct (String.eqb k k0); [reflexivity|exact IH].
Qed.

End SDictLemmas.

Lemma sdict_get_need0 (d : list (string * nat)) (k : string) :
  sdict_get (map (fun '(k, _) => (k, true)) d) k =
  match sdict_get d k with Some _ => Some true | None => None end.
Proof.
  induction d as [|[k0 v0] d IH]; simpl; [reflexivity|].
  destruct (String.eqb k k0); [reflexivity|exact IH].
Qed.

Lemma heap_get_append (h : list (list val)) (l : nat) (v : val) :
  l < length h -> heap_get (heap_append h l v) l = heap_get h l ++ [v].
Proof.
  intros Hl. unfold heap_append, heap_get at 1.
  rewrite list_lookup_insert_eq by exact Hl. reflexivity.
Qed.

Lemma length_heap_append (h : list (list val)) (l : nat) (v : val) :
  length (heap_append h l v) = length h.
Proof. unfold heap_append. apply length_insert. Qed.

(** The key loop keeps the store well formed, and leaves the keys the
    item does not have as they were. *)
Lemma register_keys_spec (it : item) :
  forall (st : store) (need : list (string * bool)),
  store_wf st ->
  store_wf (fst (register_keys st need it)) /\
  forall k, ~ In k (item_keys it) ->
    sdict_get (snd (register_keys st need it)) k = sdict_get need k /\
    sdict_get (st_dict (fst (register_keys st need it))) k = sdict_get (st_dict st) k.
Proof.
  unfold register_keys.
  induction it as [|[key value] it IH]; intros st need Hwf; simpl.
  - split; [exact Hwf|]. intros k _. split; reflexivity.
  - destruct (sdict_get (st_dict st) key) as [l|] eqn:E.
    + assert (Hwf' : store_wf {| st_dict := st_dict st;
                                 st_heap := heap_append (st_heap st) l value |}).
      { intros k l' Hk. simpl in *. rewrite length_heap_append. exact (Hwf k l' Hk). }
      destruct (IH _ (sdict_set need key false) Hwf') as [H1 H2].
      split; [exact H1|]. intros k Hk.
      destruct (H2 k (fun H => Hk (or_intror H))) as [H3 H4]. split.
      * rewrite H3, sdict_get_set.
        destruct (String.eqb_spec k key) as [->|]; [|reflexivity].
        exfalso. apply Hk. left. reflexivity.
      * exact H4.
    + assert (Hwf' : store_wf {| st_dict := st_dict st ++ [(key, length (st_heap st))];
                                 st_heap := st_heap st ++ [[value]] |}).
      { intros k l' Hk. simpl in *. rewrite sdict_get_app in Hk. rewrite length_app.
        simpl. destruct (sdict_get (st_dict st) k) eqn:Ek.
        - injection Hk as <-. specialize (Hwf k n Ek). lia.
        - simpl in Hk. destruct (String.eqb k key); [|discriminate]. injection Hk as <-. lia. }
      destruct (IH _ need Hwf') as [H1 H2].
      split; [exact H1|]. intros k Hk.
      destruct (H2 k (fun H => Hk (or_intror H))) as [H3 H4]. split; [exact H3|].
      rewrite H4. simpl. rewrite sdict_get_app.
      destruct (sdict_get (st_dict st) k); [reflexivity|]. simpl.
      destruct (String.eqb_spec k key) as [->|]; [|reflexivity].
      exfalso. apply Hk. left. reflexivity.
Qed.

(** When the item has no ["exp_latents"], [register_item] derives one from
    the item's label and appends it, last, to the ["exp_latents"] list. *)
Lemma register_item_latent (n : nat) (st st' : store) (it : item) :
  store_wf st ->
  register_item n st it = Ret st' ->
  ~ In "exp_latents"%string (item_keys it) ->
  exists l label t,
    sdict_get (st_dict st') "exp_latents" = Some l /\
    sdict_get it "exp_labels" = Some label /\
    derive_latent n label = Ret t /\
    last (heap_get (st_heap st') l) = Some (VTensor t).
Proof.
  intros Hwf Hr Hk. unfold register_item in Hr.
  destruct (register_keys_spec it st (map (fun '(k, _) => (k, true)) (st_dict st)) Hwf)
    as [Hwf1 Hkeys].
  destruct (Hkeys _ Hk) as [Hneed Hdict].
  destruct (register_keys st _ it) as [st1 need1] eqn:E. simpl in Hwf1, Hneed, Hdict.
  unfold lookup_or_keyerror in Hr.
  destruct (sdict_get need1 "exp_labels") as [[|]|]; cbn [obind] in Hr; try discriminate.
  rewrite Hneed, sdict_get_need0 in Hr.
  destruct (sdict_get (st_dict st) "exp_latents") as [l0|] eqn:El0;
    cbn [obind] in Hr; [|discriminate].
  destruct (sdict_get it "exp_labels") as [label|] eqn:Elab; cbn [obind] in Hr; [|discriminate].
  destruct (derive_latent n label) as [t| |] eqn:Ed; cbn [obind] in Hr; try discriminate.
  assert (Hd1 : sdict_get (st_dict st1) "exp_latents" = Some l0)
    by (rewrite Hdict; first [exact El0 | reflexivity]).
  rewrite Hd1 in Hr. cbn [obind] in Hr.
  assert (Hl0 : l0 < length (st_heap st1)) by (apply (Hwf1 "exp_latents"%string); exact Hd1).
  exists l0, label, t.
  destruct (sdict_get need1 "exp_latents_values") as [[|]|]; cbn [obind] in Hr; try discriminate.
  - simpl in Hr. rewrite Hd1 in Hr. cbn [obind] in Hr. injection Hr as <-. simpl.
    rewrite sdict_get_set. simpl. rewrite Hd1.
    split; [reflexivity|]. split; [first [exact Elab|reflexivity]|].
    split; [first [exact Ed|reflexivity]|].
    rewrite heap_get_append by exact Hl0. apply last_snoc.
  - injection Hr as <-. simpl. rewrite Hd1.
    split; [reflexivity|]. split; [first [exact Elab|reflexivity]|].
    split; [first [exact Ed|reflexivity]|].
    rewrite heap_get_append by exact Hl0. apply last_snoc.
Qed.

Lemma py_index_lt (len : nat) (i : Z) (pos : nat) :
  py_index len i = Some pos -> pos < len.
Proof.
  unfold py_index. intros H.
  destruct (Z.leb_spec 0 i); [destruct (Z.ltb_spec i (Z.of_nat len))|
                             destruct (Z.leb_spec (- Z.of_nat len) i)];
    try discriminate; injection H as <-; lia.
Qed.

Lemma py_index_nonneg (len : nat) (i : Z) (pos : nat) :
  (0 <= i)%Z -> py_index len i = Some pos -> Z.of_nat pos = i.
Proof.
  unfold py_index. intros Hi H.
  destruct (Z.leb_spec 0 i); [|lia].
  destruct (Z.ltb_spec i (Z.of_nat len)); [|discriminate]. injection H as <-. lia.
Qed.

(** The derived latent is [len] entries, one 1 at the label's position. *)
Lemma derive_latent_onehot (n : nat) (label : val) (t : tensor) :
  derive_latent n label = Ret t ->
  exists z pos ts,
    label = VInt z /\ py_index n z = Some pos /\ t = TNode ts /\
    length ts = n /\ ts !! pos = Some (TLeaf 1%Z) /\
    (forall j, j <> pos -> j < n -> ts !! j = Some (TLeaf 0%Z)).
Proof.
  destruct label as [z| |]; simpl; try discriminate.
  unfold setitem1, zeros. rewrite length_replicate.
  destruct (py_index n z) as [pos|] eqn:Ep; [|discriminate].
  intros H. injection H as <-.
  pose proof (py_index_lt n z pos Ep) as Hpos.
  exists z, pos, (<[pos := TLeaf 1%Z]> (replicate n (TLeaf 0%Z))).
  split; [reflexivity|]. split; [first [exact Ep|reflexivity]|]. split; [reflexivity|].
  split; [rewrite length_insert, length_replicate; reflexivity|].
  split; [apply list_lookup_insert_eq; rewrite length_replicate; exact Hpos|].
  intros j Hj Hjn. rewrite list_lookup_insert_ne by congruence.
  apply lookup_replicate_2. exact Hjn.
Qed.

Lemma init_store_wf : store_wf init_store.
Proof.
  intros k l Hk. simpl in Hk.
  repeat match type of Hk with
         | (if ?b then _ else _) = _ => destruct b
         end; try discriminate; injection Hk as <-; simpl; lia.
Qed.

(** [register_item] keeps [sample_d] well formed, so every store the
    payload loop hands to it is well formed. *)
Lemma register_item_wf (n : nat) (st st' : store) (it : item) :
  store_wf st -> register_item n st it = Ret st' -> store_wf st'.
Proof.
  intros Hwf Hr. unfold register_item in Hr.
  destruct (register_keys_spec it st (map (fun '(k, _) => (k, true)) (st_dict st)) Hwf)
    as [Hwf1 _].
  destruct (register_keys st _ it) as [st1 need1]. simpl in Hwf1.
  unfold lookup_or_keyerror in Hr.
  destruct (sdict_get need1 "exp_labels") as [[|]|]; cbn [obind] in Hr; try discriminate.
  destruct (sdict_get need1 "exp_latents") as [[|]|]; cbn [obind] in Hr; try discriminate.
  - destruct (sdict_get it "exp_labels"); cbn [obind] in Hr; [|discriminate].
    destruct (derive_latent n v) as [t| |]; cbn [obind] in Hr; try discriminate.
    destruct (sdict_get (st_dict st1) "exp_latents") as [l|] eqn:El; cbn [obind] in Hr;
      [|discriminate].
    assert (Hwf2 : store_wf {| st_dict := st_dict st1;
                               st_heap := heap_append (st_heap st1) l (VTensor t) |}).
    { intros k l' Hk. simpl in *. rewrite length_heap_append. exact (Hwf1 k l' Hk). }
    destruct (sdict_get need1 "exp_latents_values") as [[|]|]; cbn [obind] in Hr;
      try discriminate.
    + simpl in Hr. rewrite El in Hr. cbn [obind] in Hr. injection Hr as <-.
      intros k l' Hk. simpl in *. rewrite length_heap_append.
      rewrite sdict_get_set in Hk. destruct (String.eqb k "exp_latents_values").
      * injection Hk as <-. exact (Hwf1 _ _ El).
      * exact (Hwf1 _ _ Hk).
    + injection Hr as <-. exact Hwf2.
  - destruct (sdict_get need1 "exp_latents_values") as [[|]|]; cbn [obind] in Hr;
      try discriminate.
    + destruct (sdict_get (st_dict st1) "exp_latents") as [l|] eqn:El; cbn [obind] in Hr;
        [|discriminate].
      injection Hr as <-. intros k l' Hk. simpl in *.
      rewrite sdict_get_set in Hk. destruct (String.eqb k "exp_latents_values").
      * injection Hk as <-. exact (Hwf1 _ _ El).
      * exact (Hwf1 _ _ Hk).
    + injection Hr as <-. exact Hwf1.
Qed.

(** C8: for an item without an ["exp_latents"] entry, the per-item step
    of [sample] appends, as the last element of ["exp_latents"], a
    vector of length [nbr_classes] whose only 1.0 is at the item's label
    (Python indexing: a label [z >= 0] is position [z]) and 0.0 elsewhere. *)
Theorem register_item_latent_onehot (ds : dual_ds) (st st' : store) (it : item) :
  store_wf st ->
  register_item (dl_nbr_classes ds) st it = Ret st' ->
  ~ In "exp_latents"%string (item_keys it) ->
  exists l z pos ts,
    sdict_get (st_dict st') "exp_latents" = Some l /\
    sdict_get it "exp_labels" = Some (VInt z) /\
    py_index (dl_nbr_classes ds) z = Some pos /\
    ((0 <= z)%Z -> Z.of_nat pos = z) /\
    last (heap_get (st_heap st') l) = Some (VTensor (TNode ts)) /\
    length ts = dl_nbr_classes ds /\
    ts !! pos = Some (TLeaf 1%Z) /\
    (forall j, j <> pos -> j < dl_nbr_classes ds -> ts !! j = Some (TLeaf 0%Z)).
Proof.
  intros Hwf Hr Hk.
  destruct (register_item_latent _ st st' it Hwf Hr Hk) as (l & label & t & Hl & Hlab & Hd & Hlast).
  destruct (derive_latent_onehot _ label t Hd) as (z & pos & ts & -> & Hp & -> & Hlen & H1 & H0).
  exists l, z, pos, ts.
  split; [exact Hl|]. split; [exact Hlab|]. split; [exact Hp|].
  split; [intros Hz; exact (py_index_nonneg _ z pos Hz Hp)|].
  split; [exact Hlast|]. split; [exact Hlen|]. split; [exact H1|]. exact H0.
Qed.

Lemma register_item_latent_onehot_witness :
  exists st',
    register_item (dl_nbr_classes ex_ds) init_store (ex_item 1) = Ret st' /\
    exists l z pos ts,
      sdict_get (st_dict st') "exp_latents" = Some l /\
      sdict_get (ex_item 1) "exp_labels" = Some (VInt z) /\
      py_index (dl_nbr_classes ex_ds) z = Some pos /\
      ((0 <= z)%Z -> Z.of_nat pos = z) /\
      last (heap_get (st_heap st') l) = Some (VTensor (TNode ts)) /\
      length ts = dl_nbr_classes ex_ds /\
      ts !! pos = Some (TLeaf 1%Z) /\
      (forall j, j <> pos -> j < dl_nbr_classes ex_ds -> ts !! j = Some (TLeaf 0%Z)).
Proof.
  eexists. split; [vm_compute; reflexivity|].
  apply (register_item_latent_onehot ex_ds init_store _ (ex_item 1) init_store_wf).
  - vm_compute. reflexivity.
  - simpl. intros [H|[H|[]]]; discriminate H.
Defined.

(** C10: the derived latent's length is the unified class count
    [len(self.test_classes)], fixed at construction whatever the mode set
    since; in any mode but ["test"], [getNbrClasses()] is the number of
    train classes; and on some datasets the latter is strictly smaller. *)
Theorem latent_length_unified_class_count (train test : dataset) (mode0 mode : string)
    (nbr_distractors : list (string * nat)) (st st' : store) (it : item) :
  let ds := set_mode (DualLabeledDataset_init train test mode0 nbr_distractors) mode in
  (store_wf st ->
   register_item (dl_nbr_classes ds) st it = Ret st' ->
   ~ In "exp_latents"%string (item_keys it) ->
   exists l ts,
     sdict_get (st_dict st') "exp_latents" = Some l /\
     last (heap_get (st_heap st') l) = Some (VTensor (TNode ts)) /\
     length ts = length (dict_keys (dl_test_classes ds))) /\
  (String.eqb mode "test" = false ->
   getNbrClasses ds = length (dict_keys (dl_train_classes ds))) /\
  (exists train' test' nd',
     let ds' := DualLabeledDataset_init train' test' "train" nd' in
     getNbrClasses ds' < dl_nbr_classes ds').
Proof.
  intros ds. split; [|split].
  - intros Hwf Hr Hk.
    destruct (register_item_latent _ st st' it Hwf Hr Hk) as (l & label & t & Hl & _ & Hd & Hlast).
    destruct (derive_latent_onehot _ label t Hd) as (z & pos & ts & _ & _ & -> & Hlen & _).
    exists l, ts. split; [exact Hl|]. split; [exact Hlast|]. exact Hlen.
  - intros Hm. unfold ds, getNbrClasses, set_mode. simpl. rewrite Hm. unfold dict_keys.
    rewrite length_map. reflexivity.
  - exists ex_train, ex_test, [("train", 1); ("test", 1)]%string. vm_compute. lia.
Qed.

Lemma latent_length_unified_class_count_witness :
  exists st',
    register_item (dl_nbr_classes (set_mode ex_ds "train")) init_store (ex_item 0) = Ret st' /\
    exists l ts,
      sdict_get (st_dict st') "exp_latents" = Some l /\
      last (heap_get (st_heap st') l) = Some (VTensor (TNode ts)) /\
      length ts = length (dict_keys (dl_test_classes (set_mode ex_ds "train"))).
Proof.
  eexists. split; [vm_compute; reflexivity|].
  apply (proj1 (latent_length_unified_class_count ex_train ex_test "train" "train"
                  [("train", 1); ("test", 1)]%string init_store _ (ex_item 0))).
  - exact init_store_wf.
  - vm_compute. reflexivity.
  - simpl. intros [H|[H|[]]]; discriminate H.
Defined.

(** [if target_only: break] stops the payload loop after the first index. *)
Lemma payload_loop_target_only (ds : dual_ds) (i : nat) (rest : list nat) (st : store) :
  payload_loop ds (i :: rest) true st = payload_loop ds [i] false st.
Proof.
  cbn [payload_loop].
  destruct (if Nat.leb (ds_len (dl_train ds)) i
            then (dl_test ds, i - ds_len (dl_train ds)) else (dl_train ds, i)) as [d j].
  destruct (nth_error (ds_items d) j) as [it|]; cbn [obind]; [|reflexivity].
  destruct (register_item (dl_nbr_classes ds) st it); reflexivity.
Qed.

(** C9: with [target_only = true] (and a working set large enough), the
    distractors are still drawn: ["indices"] has [1 + n] entries, the
    target first; the payload is the one built from the target alone. *)
Theorem sample_target_only_full_indices (ds : dual_ds) (idx : nat)
    (from_class : option (list Z)) (excepts : option (list nat))
    (rs : nat -> nat) (fuel n : nat) (U : gset nat) :
  sdict_get (dl_nbr_distractors ds) (dl_mode ds) = Some n ->
  union_classes (active_classes ds) ∅
    (first_candidates (active_classes ds) from_class) = Ret U ->
  target_global ds idx ∈ remove_excepts U excepts ->
  n <= size (remove_excepts U excepts ∖ {[target_global ds idx]}) ->
  1 <= fuel ->
  exists indices evs,
    length indices = 1 + n /\
    head indices = Some (target_global ds idx) /\
    sample ds idx from_class excepts true rs fuel =
      (payload <- build_payload ds [target_global ds idx] false ;;
       Ret {| so_payload := payload; so_indices := indices; so_events := evs |}).
Proof.
  intros Hn HU Hin Hsz Hf.
  destruct (sample_indices_sufficient ds idx from_class excepts rs fuel n U Hn HU Hin Hsz Hf)
    as (l & Hsi & Hlen & _ & _).
  exists (target_global ds idx :: l), []. split; [simpl; lia|]. split; [reflexivity|].
  unfold sample. rewrite Hsi. cbn [obind].
  unfold build_payload. rewrite payload_loop_target_only. reflexivity.
Qed.

Lemma sample_target_only_full_indices_witness :
  sdict_get (dl_nbr_distractors ex_ds) (dl_mode ex_ds) = Some 1 /\
  union_classes (active_classes ex_ds) ∅
    (first_candidates (active_classes ex_ds) None) = Ret (list_to_set [0; 1; 2; 3; 4]) /\
  target_global ex_ds 0 ∈ remove_excepts (list_to_set [0; 1; 2; 3; 4]) None /\
  1 <= size (remove_excepts (list_to_set [0; 1; 2; 3; 4]) None ∖ {[target_global ex_ds 0]}) /\
  exists indices evs,
    length indices = 2 /\ head indices = Some 0 /\
    sample ex_ds 0 None None true (fun k => k) 1 =
      (payload <- build_payload ex_ds [0] false ;;
       Ret {| so_payload := payload; so_indices := indices; so_events := evs |}).
Proof.
  assert (H1 : sdict_get (dl_nbr_distractors ex_ds) (dl_mode ex_ds) = Some 1) by by_eval.
  assert (H2 : union_classes (active_classes ex_ds) ∅
    (first_candidates (active_classes ex_ds) None) = Ret (list_to_set [0; 1; 2; 3; 4])) by by_eval.
  assert (H3 : target_global ex_ds 0 ∈ remove_excepts (list_to_set [0; 1; 2; 3; 4]) None)
    by by_eval.
  assert (H4 : 1 <= size (remove_excepts (list_to_set [0; 1; 2; 3; 4]) None
                            ∖ {[target_global ex_ds 0]})) by by_eval.
  split; [exact H1|]. split; [exact H2|]. split; [exact H3|]. split; [exact H4|].
  exact (sample_target_only_full_indices ex_ds 0 None None (fun k => k) 1 1
           (list_to_set [0; 1; 2; 3; 4]) H1 H2 H3 H4 (le_n 1)).
Defined.

(* ===================================================================== *)
(** ** The distractor curriculum *)
(* ===================================================================== *)

Lemma counts_le_refl (c : list (string * nat)) : counts_le c c.
Proof. intros k n H. exists n. split; [exact H | lia]. Qed.

Lemma counts_le_trans (c1 c2 c3 : list (string * nat)) :
  counts_le c1 c2 -> counts_le c2 c3 -> counts_le c1 c3.
Proof.
  intros H12 H23 k n H1.
  destruct (H12 k n H1) as [n2 [H2 Hle2]].
  destruct (H23 k n2 H2) as [n3 [H3 Hle3]].
  exists n3. split; [exact H3 | lia].
Qed.

Lemma counts_le_set_succ (c : list (string * nat)) (m : string) (n : nat) :
  sdict_get c m = Some n -> counts_le c (setNbrDistractors c (S n) m).
Proof.
  intros Hm k n0 Hk. unfold setNbrDistractors. rewrite sdict_get_set.
  destruct (String.eqb_spec k m) as [->|Hne].
  - rewrite Hm in Hk. injection Hk as <-. exists (S n). split; [reflexivity | lia].
  - exists n0. split; [exact Hk | lia].
Qed.

Lemma increment_all_le (modes : list string) (c c' : list (string * nat)) :
  increment_all modes c = Ret c' -> counts_le c c'.
Proof.
  revert c. induction modes as [|m modes IH]; intros c H; simpl in H.
  - injection H as <-. apply counts_le_refl.
  - unfold getNbrDistractors, lookup_or_keyerror in H.
    destruct (sdict_get c m) as [n|] eqn:Hm; [|discriminate H].
    cbn [obind] in H.
    eapply counts_le_trans; [apply (counts_le_set_succ c m n Hm) | exact (IH _ H)].
Qed.

(** With distinct modes, [increment_all] adds one to the count of every
    listed mode and leaves the others unchanged. *)
Lemma increment_all_spec (modes : list string) (c c' : list (string * nat)) :
  NoDup modes -> increment_all modes c = Ret c' ->
  forall k, sdict_get c' k =
    if existsb (String.eqb k) modes then option_map S (sdict_get c k) else sdict_get c k.
Proof.
  revert c. induction modes as [|m modes IH]; intros c Hnd H k; simpl in H.
  - injection H as <-. reflexivity.
  - apply NoDup_cons in Hnd as [Hnot Hnd].
    unfold getNbrDistractors, lookup_or_keyerror in H.
    destruct (sdict_get c m) as [n|] eqn:Hm; [|discriminate H].
    cbn [obind] in H.
    rewrite (IH _ Hnd H k). unfold setNbrDistractors. rewrite sdict_get_set.
    simpl. destruct (String.eqb_spec k m) as [->|Hne].
    + assert (Hex : existsb (String.eqb m) modes = false).
      { apply Bool.not_true_is_false. intros Hex.
        apply existsb_exists in Hex as [x [Hx Heq]].
        apply String.eqb_eq in Heq. subst x.
        apply Hnot. apply list_elem_of_In. exact Hx. }
      rewrite Hex, Hm. reflexivity.
    + destruct (existsb (String.eqb k) modes); reflexivity.
Qed.

Lemma increment_all_in (modes : list string) (c c' : list (string * nat)) (k : string) :
  NoDup modes -> increment_all modes c = Ret c' -> In k modes ->
  sdict_get c' k = option_map S (sdict_get c k).
Proof.
  intros Hnd H Hin. rewrite (increment_all_spec modes c c' Hnd H k).
  assert (Hex : existsb (String.eqb k) modes = true).
  { apply existsb_exists. exists k. split; [exact Hin | apply String.eqb_refl]. }
  rewrite Hex. reflexivity.
Qed.

Lemma last_cons_In (y : string) (l : list string) :
  exists z, last (y :: l) = Some z /\ In z (y :: l).
Proof.
  revert y. induction l as [|z l IH]; intros y.
  - exists y. split; [reflexivity | left; reflexivity].
  - destruct (IH z) as [w [Hw Hin]]. exists w. split.
    + change (last (y :: z :: l)) with (last (z :: l)). exact Hw.
    + right. exact Hin.
Qed.

Lemma last_default_In (l : list string) (d : string) :
  In d l -> In (default d (last l)) l.
Proof.
  intros Hd. destruct l as [|y l]; [destruct Hd|].
  destruct (last_cons_In y l) as [z [Hz Hin]]. rewrite Hz. exact Hin.
Qed.

(** What one curriculum step can do: nothing (not a training batch), update
    only the window, or increment every mode and reset the window, the
    loop variable then being the last mode. *)
Lemma curriculum_step_inv (cfg : curriculum_cfg) (mode : string) (acc : Q)
    (cs cs' : cstate) (mode' : string) :
  curriculum_step cfg mode acc cs = Ret (cs', mode') ->
  (cs' = cs /\ mode' = mode)
  \/ (cs_counts cs' = cs_counts cs /\ mode' = mode)
  \/ (str_contains "train" mode = true /\
      exists nbr mx,
        sdict_get (cs_counts cs) mode = Some nbr /\
        sdict_get (cc_max cfg) mode = Some mx /\ nbr < mx /\
        (75 < (cs_wa cs * inject_Z (Z.of_nat (cs_wc cs)) + acc)
                / inject_Z (Z.of_nat (S (cs_wc cs))))%Q /\
        cc_window_size cfg < S (cs_wc cs) /\
        increment_all (cc_modes cfg) (cs_counts cs) = Ret (cs_counts cs') /\
        cs_wa cs' = 0%Q /\ cs_wc cs' = 0 /\
        mode' = default mode (last (cc_modes cfg))).
Proof.
  unfold curriculum_step. intros H.
  destruct (str_contains "train" mode) eqn:Htr;
    [|injection H as <- <-; left; split; reflexivity].
  unfold getNbrDistractors, lookup_or_keyerror in H.
  destruct (sdict_get (cs_counts cs) mode) as [nbr|] eqn:Hn; [|discriminate H].
  cbn [obind] in H.
  destruct (negb (Qle_bool _ 75%Q) && Nat.ltb (cc_window_size cfg) (S (cs_wc cs))) eqn:Hc;
    [|injection H as <- <-; right; left; split; reflexivity].
  destruct (sdict_get (cc_max cfg) mode) as [mx|] eqn:Hmx; [|discriminate H].
  cbn [obind] in H.
  destruct (Nat.ltb nbr mx) eqn:Hlt;
    [|injection H as <- <-; right; left; split; reflexivity].
  destruct (increment_all (cc_modes cfg) (cs_counts cs)) as [c'| |] eqn:Hinc;
    cbn [obind] in H; try discriminate H.
  injection H as <- <-. right; right. split; [reflexivity|].
  apply andb_true_iff in Hc as [Hwa Hwc].
  apply Bool.negb_true_iff in Hwa. apply Nat.ltb_lt in Hwc. apply Nat.ltb_lt in Hlt.
  exists nbr, mx. repeat split; try assumption; try reflexivity.
  apply Qnot_le_lt. intros Hle. apply Qle_bool_iff in Hle. congruence.
Qed.

(** One curriculum step in full: a batch of a mode without ["train"]
    changes nothing; on a training batch the window is updated to
    [wa1 = (wa * wc + acc) / (wc + 1)] and [wc + 1], and then every mode's
    count goes up by one and the window is reset exactly when [wa1 > 75],
    [wc + 1 > window_size] and the mode's count is below its maximum;
    otherwise the counts stay and the updated window is kept. *)
Lemma curriculum_step_exact (cfg : curriculum_cfg) (mode : string) (acc : Q)
    (c1 c2 : cstate) (mode' : string) :
  NoDup (cc_modes cfg) ->
  curriculum_step cfg mode acc c1 = Ret (c2, mode') ->
  (str_contains "train" mode = false -> c2 = c1) /\
  (str_contains "train" mode = true ->
   exists nbr, sdict_get (cs_counts c1) mode = Some nbr /\
   (((75 < ((cs_wa c1 * inject_Z (Z.of_nat (cs_wc c1)) + acc) / inject_Z (Z.of_nat (S (cs_wc c1))))%Q)%Q /\ cc_window_size cfg < S (cs_wc c1) /\
     exists mx, sdict_get (cc_max cfg) mode = Some mx /\ nbr < mx) ->
    cs_wa c2 = 0%Q /\ cs_wc c2 = 0 /\
    forall k, sdict_get (cs_counts c2) k =
      if existsb (String.eqb k) (cc_modes cfg)
      then option_map S (sdict_get (cs_counts c1) k)
      else sdict_get (cs_counts c1) k) /\
   (~ ((75 < ((cs_wa c1 * inject_Z (Z.of_nat (cs_wc c1)) + acc) / inject_Z (Z.of_nat (S (cs_wc c1))))%Q)%Q /\ cc_window_size cfg < S (cs_wc c1) /\
       exists mx, sdict_get (cc_max cfg) mode = Some mx /\ nbr < mx) ->
    cs_counts c2 = cs_counts c1 /\
    cs_wa c2 = ((cs_wa c1 * inject_Z (Z.of_nat (cs_wc c1)) + acc) / inject_Z (Z.of_nat (S (cs_wc c1))))%Q /\
    cs_wc c2 = S (cs_wc c1))).
Proof.
  intros Hnd H. unfold curriculum_step in H.
  destruct (str_contains "train" mode) eqn:Htr.
  2: { injection H as <- <-. split; [intros _; reflexivity|intros Hf; discriminate Hf]. }
  split; [intros Hf; discriminate Hf|intros _].
  unfold getNbrDistractors, lookup_or_keyerror in H.
  destruct (sdict_get (cs_counts c1) mode) as [nbr|] eqn:Hn; [|discriminate H].
  cbn [obind] in H. cbv zeta in H. exists nbr. split; [reflexivity|].
  destruct (Qle_bool ((cs_wa c1 * inject_Z (Z.of_nat (cs_wc c1)) + acc) / inject_Z (Z.of_nat (S (cs_wc c1))))%Q 75%Q) eqn:Hq.
  - cbn [negb andb] in H. injection H as <- <-.
    split.
    + intros [Hlt _]. exfalso. apply Qle_bool_iff in Hq. exact (Qlt_not_le _ _ Hlt Hq).
    + intros _. repeat split.
  - destruct (Nat.ltb (cc_window_size cfg) (S (cs_wc c1))) eqn:Hw;
      cbn [negb andb] in H.
    2: { injection H as <- <-. split.
         - intros [_ [Hlt _]]. exfalso. apply Nat.ltb_nlt in Hw. exact (Hw Hlt).
         - intros _. repeat split. }
    destruct (sdict_get (cc_max cfg) mode) as [mx|] eqn:Hmx; [|discriminate H].
    cbn [obind] in H.
    destruct (Nat.ltb nbr mx) eqn:Hlt.
    + destruct (increment_all (cc_modes cfg) (cs_counts c1)) as [c'| |] eqn:Hinc;
        cbn [obind] in H; try discriminate H.
      injection H as <- <-. split.
      * intros _. split; [reflexivity|]. split; [reflexivity|].
        exact (increment_all_spec _ _ _ Hnd Hinc).
      * intros Hnot. exfalso. apply Hnot. split.
        { apply Qnot_le_lt. intros Hle. apply Qle_bool_iff in Hle. congruence. }
        split; [apply Nat.ltb_lt; exact Hw|].
        exists mx. split; [reflexivity|]. apply Nat.ltb_lt. exact Hlt.
    + injection H as <- <-. split.
      * intros [_ [_ [mx' [Hmx' Hlt']]]]. exfalso.
        injection Hmx' as <-. apply Nat.ltb_nlt in Hlt. exact (Hlt Hlt').
      * intros _. repeat split.
Qed.

Lemma curriculum_step_le (cfg : curriculum_cfg) (mode : string) (acc : Q)
    (cs cs' : cstate) (mode' : string) :
  curriculum_step cfg mode acc cs = Ret (cs', mode') ->
  counts_le (cs_counts cs) (cs_counts cs').
Proof.
  intros H. destruct (curriculum_step_inv _ _ _ _ _ _ H)
    as [[-> _]|[[Hc _]|[_ [nbr [mx Hs]]]]].
  - apply counts_le_refl.
  - rewrite Hc. apply counts_le_refl.
  - destruct Hs as (_ & _ & _ & _ & _ & Hinc & _). exact (increment_all_le _ _ _ Hinc).
Qed.

Lemma curriculum_slot_le (cfg : curriculum_cfg) (mode : string) (accs : list Q)
    (cs cs' : cstate) :
  curriculum_slot cfg mode accs cs = Ret cs' -> counts_le (cs_counts cs) (cs_counts cs').
Proof.
  revert mode cs. induction accs as [|a accs IH]; intros mode cs H; simpl in H.
  - injection H as <-. apply counts_le_refl.
  - destruct (curriculum_step cfg mode a cs) as [[cs1 m1]| |] eqn:Hs;
      cbn [obind] in H; try discriminate H.
    eapply counts_le_trans; [exact (curriculum_step_le _ _ _ _ _ _ Hs) | exact (IH _ _ H)].
Qed.

Lemma curriculum_epoch_le (cfg : curriculum_cfg) (slots : list (string * list Q))
    (cs cs' : cstate) :
  curriculum_epoch cfg slots cs = Ret cs' -> counts_le (cs_counts cs) (cs_counts cs').
Proof.
  revert cs. induction slots as [|[m accs] slots IH]; intros cs H; simpl in H.
  - injection H as <-. apply counts_le_refl.
  - destruct (curriculum_slot cfg m accs cs) as [cs1| |] eqn:Hs;
      cbn [obind] in H; try discriminate H.
    eapply counts_le_trans; [exact (curriculum_slot_le _ _ _ _ _ Hs) | exact (IH _ H)].
Qed.

Lemma curriculum_run_le (cfg : curriculum_cfg) (epochs : list (list (list Q)))
    (cs cs' : cstate) :
  curriculum_run cfg epochs cs = Ret cs' -> counts_le (cs_counts cs) (cs_counts cs').
Proof.
  revert cs. induction epochs as [|accs epochs IH]; intros cs H; simpl in H.
  - injection H as <-. apply counts_le_refl.
  - destruct (curriculum_epoch cfg (combine (cc_modes cfg) accs) cs) as [cs1| |] eqn:Hs;
      cbn [obind] in H; try discriminate H.
    eapply counts_le_trans; [exact (curriculum_epoch_le _ _ _ _ Hs) | exact (IH _ H)].
Qed.

Section TrainCap.

Variable cfg : curriculum_cfg.
Variable mtr : string.
Hypothesis Hnd : NoDup (cc_modes cfg).
Hypothesis Hmtr : In mtr (cc_modes cfg).
Hypothesis Huniq : forall m, In m (cc_modes cfg) -> str_contains "train" m = true -> m = mtr.

Lemma curriculum_step_cap (mode : string) (acc : Q) (cs cs' : cstate) (mode' : string) :
  In mode (cc_modes cfg) -> train_capped cfg mtr cs ->
  curriculum_step cfg mode acc cs = Ret (cs', mode') ->
  In mode' (cc_modes cfg) /\ train_capped cfg mtr cs'.
Proof.
  intros Hin Hcap H.
  destruct (curriculum_step_inv _ _ _ _ _ _ H) as [[-> ->]|[[Hc ->]|[Htr [nbr [mx Hs]]]]].
  - split; assumption.
  - split; [exact Hin|]. intros n m1 Hn. rewrite Hc in Hn. exact (Hcap n m1 Hn).
  - destruct Hs as (Hn & Hmx & Hlt & _ & _ & Hinc & _ & _ & ->).
    split; [apply last_default_In; exact Hin|].
    pose proof (Huniq mode Hin Htr) as ->.
    intros n m1 Hn' Hm1.
    rewrite (increment_all_in _ _ _ mtr Hnd Hinc Hmtr), Hn in Hn'.
    simpl in Hn'. injection Hn' as <-. rewrite Hmx in Hm1. injection Hm1 as <-. lia.
Qed.

Lemma curriculum_slot_cap (mode : string) (accs : list Q) (cs cs' : cstate) :
  In mode (cc_modes cfg) -> train_capped cfg mtr cs ->
  curriculum_slot cfg mode accs cs = Ret cs' -> train_capped cfg mtr cs'.
Proof.
  revert mode cs. induction accs as [|a accs IH]; intros mode cs Hin Hcap H; simpl in H.
  - injection H as <-. exact Hcap.
  - destruct (curriculum_step cfg mode a cs) as [[cs1 m1]| |] eqn:Hs;
      cbn [obind] in H; try discriminate H.
    destruct (curriculum_step_cap _ _ _ _ _ Hin Hcap Hs) as [Hin1 Hcap1].
    exact (IH _ _ Hin1 Hcap1 H).
Qed.

Lemma curriculum_epoch_cap (slots : list (string * list Q)) (cs cs' : cstate) :
  (forall m accs, In (m, accs) slots -> In m (cc_modes cfg)) -> train_capped cfg mtr cs ->
  curriculum_epoch cfg slots cs = Ret cs' -> train_capped cfg mtr cs'.
Proof.
  revert cs. induction slots as [|[m accs] slots IH]; intros cs Hsl Hcap H; simpl in H.
  - injection H as <-. exact Hcap.
  - destruct (curriculum_slot cfg m accs cs) as [cs1| |] eqn:Hs;
      cbn [obind] in H; try discriminate H.
    apply (IH cs1); [intros m' a' Hi; apply (Hsl m' a'); right; exact Hi| |exact H].
    apply (curriculum_slot_cap m accs cs); [apply (Hsl m accs); left; reflexivity|exact Hcap|exact Hs].
Qed.

Lemma curriculum_run_cap (epochs : list (list (list Q))) (cs cs' : cstate) :
  train_capped cfg mtr cs -> curriculum_run cfg epochs cs = Ret cs' -> train_capped cfg mtr cs'.
Proof.
  revert cs. induction epochs as [|accs epochs IH]; intros cs Hcap H; simpl in H.
  - injection H as <-. exact Hcap.
  - destruct (curriculum_epoch cfg (combine (cc_modes cfg) accs) cs) as [cs1| |] eqn:Hs;
      cbn [obind] in H; try discriminate H.
    apply (IH cs1); [|exact H].
    apply (curriculum_epoch_cap (combine (cc_modes cfg) accs) cs); [|exact Hcap|exact Hs].
    intros m a Hi. exact (in_combine_l _ _ _ _ Hi).
Qed.

End TrainCap.

(** C3 (counterexample): with modes ["train"] (maximum 3) and ["test"]
    (maximum 1), both starting at one distractor and a window size of 0,
    a single training batch of accuracy 100 triggers the increment, which
    also raises the test mode's count to 2, beyond its configured maximum
    of 1: only the training mode's maximum is checked. *)
Lemma curriculum_test_count_exceeds_max :
  curriculum_run ex_ccfg [[[100%Q]; []]] (curriculum_init ex_ccfg 1)
    = Ret {| cs_counts := [("train", 2); ("test", 2)]%string; cs_wa := 0%Q; cs_wc := 0 |}
  /\ sdict_get (cc_max ex_ccfg) "test"%string = Some 1
  /\ 1 < 2.
Proof. vm_compute. repeat split. lia. Qed.

(** C3 (amended): when the dataset modes are distinct and [mtr] is the only
    one whose name contains ["train"], then along any sequence of batch
    accuracies every mode's count is non-decreasing and the count of [mtr]
    stays within [config['nbr_distractors'][mtr]] if it starts there.
    Each step on a batch of a mode without ["train"] changes nothing. On a
    training batch the window is updated to
    [wa1 = (windowed_accuracy * window_count + acc) / (window_count + 1)]
    and [window_count + 1]; then, exactly when [wa1] exceeds 75, the new
    window count exceeds [curriculum_distractors_window_size] and the
    current mode's count is below that mode's maximum, every mode's count
    goes up by exactly one, whatever its own maximum, and the window is
    reset to empty; otherwise every count stays and the updated window is
    kept. *)
Theorem curriculum_counts_monotone_train_capped (cfg : curriculum_cfg) (mtr : string)
    (epochs : list (list (list Q))) (cs cs' : cstate)
    (Hnd : NoDup (cc_modes cfg)) (Hmtr : In mtr (cc_modes cfg))
    (Huniq : forall m, In m (cc_modes cfg) -> str_contains "train" m = true -> m = mtr)
    (Hcap : train_capped cfg mtr cs)
    (Hrun : curriculum_run cfg epochs cs = Ret cs') :
  counts_le (cs_counts cs) (cs_counts cs') /\
  train_capped cfg mtr cs' /\
  (forall mode acc c1 c2 mode',
     curriculum_step cfg mode acc c1 = Ret (c2, mode') ->
     (str_contains "train" mode = false -> c2 = c1) /\
     (str_contains "train" mode = true ->
      exists nbr, sdict_get (cs_counts c1) mode = Some nbr /\
      (((75 < ((cs_wa c1 * inject_Z (Z.of_nat (cs_wc c1)) + acc) / inject_Z (Z.of_nat (S (cs_wc c1))))%Q)%Q /\ cc_window_size cfg < S (cs_wc c1) /\
        exists mx, sdict_get (cc_max cfg) mode = Some mx /\ nbr < mx) ->
       cs_wa c2 = 0%Q /\ cs_wc c2 = 0 /\
       forall k, sdict_get (cs_counts c2) k =
         if existsb (String.eqb k) (cc_modes cfg)
         then option_map S (sdict_get (cs_counts c1) k)
         else sdict_get (cs_counts c1) k) /\
      (~ ((75 < ((cs_wa c1 * inject_Z (Z.of_nat (cs_wc c1)) + acc) / inject_Z (Z.of_nat (S (cs_wc c1))))%Q)%Q /\ cc_window_size cfg < S (cs_wc c1) /\
          exists mx, sdict_get (cc_max cfg) mode = Some mx /\ nbr < mx) ->
       cs_counts c2 = cs_counts c1 /\
       cs_wa c2 = ((cs_wa c1 * inject_Z (Z.of_nat (cs_wc c1)) + acc) / inject_Z (Z.of_nat (S (cs_wc c1))))%Q /\
       cs_wc c2 = S (cs_wc c1)))).
Proof.
  split; [exact (curriculum_run_le _ _ _ _ Hrun)|].
  split; [exact (curriculum_run_cap cfg mtr Hnd Hmtr Huniq epochs cs cs' Hcap Hrun)|].
  intros mode acc c1 c2 mode' H.
  exact (curriculum_step_exact cfg mode acc c1 c2 mode' Hnd H).
Qed.

Lemma curriculum_counts_monotone_train_capped_witness :
  counts_le (cs_counts (curriculum_init ex_ccfg 1))
    [("train", 2); ("test", 2)]%string /\
  train_capped ex_ccfg "train"
    {| cs_counts := [("train", 2); ("test", 2)]%string; cs_wa := 0%Q; cs_wc := 0 |}.
Proof.
  destruct (curriculum_counts_monotone_train_capped ex_ccfg "train"%string [[[100%Q]; []]]
              (curriculum_init ex_ccfg 1)
              {| cs_counts := [("train", 2); ("test", 2)]%string; cs_wa := 0%Q; cs_wc := 0 |})
    as [Hle [Hc _]].
  - constructor; [|constructor; [|constructor]].
    + intros Hin. apply list_elem_of_In in Hin. destruct Hin as [H|[]]. discriminate H.
    + intros Hin. apply list_elem_of_In in Hin. destruct Hin.
  - left. reflexivity.
  - intros m Hm Hc. destruct Hm as [<-|[<-|[]]]; [reflexivity|vm_compute in Hc; discriminate Hc].
  - intros n mx Hn Hmx. vm_compute in Hn, Hmx. injection Hn as <-. injection Hmx as <-. lia.
  - vm_compute. reflexivity.
  - split; [exact Hle | exact Hc].
Defined.

(* ===================================================================== *)
(** ** Serving the pipelines *)
(* ===================================================================== *)

Lemma serve_count_app (p : string) (t1 t2 : list tevent) :
  serve_count p (t1 ++ t2) = serve_count p t1 + serve_count p t2.
Proof. unfold serve_count. rewrite List.filter_app, length_app. reflexivity. Qed.

Lemma serve_count_rounds (p : string) (R : nat) (pipes : list string) (l : list nat) :
  serve_count p (flat_map (comm_round R pipes) l) = length l * serve_count p (serve_pipes pipes true).
Proof.
  induction l as [|i l IH]; [reflexivity|].
  change (flat_map (comm_round R pipes) (i :: l))
    with (comm_round R pipes i ++ flat_map (comm_round R pipes) l).
  rewrite serve_count_app, IH. unfold comm_round.
  change (serve_count p (TSetEoc (Nat.eqb i (R - 1)) :: serve_pipes pipes true))
    with (serve_count p (serve_pipes pipes true)).
  simpl length. lia.
Qed.

Lemma serve_count_serve_pipes (p : string) (pipes : list string) (want : bool) :
  NoDup pipes ->
  serve_count p (serve_pipes pipes want) =
  if existsb (String.eqb p) pipes && Bool.eqb (is_rg_pipe p) want then 1 else 0.
Proof.
  induction pipes as [|q pipes IH]; intros Hnd; [reflexivity|].
  apply NoDup_cons in Hnd as [Hnot Hnd].
  unfold serve_pipes in *. simpl List.filter. simpl existsb.
  destruct (String.eqb_spec p q) as [->|Hne].
  - assert (Hex : existsb (String.eqb q) pipes = false).
    { apply Bool.not_true_is_false. intros Hex.
      apply existsb_exists in Hex as [x [Hx Heq]].
      apply String.eqb_eq in Heq. subst x.
      apply Hnot. apply list_elem_of_In. exact Hx. }
    specialize (IH Hnd). rewrite Hex in IH. simpl in IH.
    destruct (Bool.eqb (is_rg_pipe q) want); simpl.
    + unfold serve_count in *. simpl. rewrite String.eqb_refl. simpl. rewrite IH. reflexivity.
    + exact IH.
  - cbn [orb]. rewrite <- IH by exact Hnd.
    destruct (Bool.eqb (is_rg_pipe q) want); [|reflexivity].
    unfold serve_count. simpl. apply String.eqb_neq in Hne. rewrite Hne. reflexivity.
Qed.

Lemma eoc_writes_app (t1 t2 : list tevent) :
  eoc_writes (t1 ++ t2) = eoc_writes t1 ++ eoc_writes t2.
Proof. unfold eoc_writes. apply flat_map_app. Qed.

Lemma eoc_writes_serve (pipes : list string) (want : bool) :
  eoc_writes (serve_pipes pipes want) = [].
Proof.
  unfold serve_pipes. induction (List.filter _ pipes) as [|q l IH]; [reflexivity|].
  exact IH.
Qed.

Lemma eoc_writes_rounds (R : nat) (pipes : list string) (l : list nat) :
  eoc_writes (flat_map (comm_round R pipes) l) = map (fun i => Nat.eqb i (R - 1)) l.
Proof.
  induction l as [|i l IH]; [reflexivity|].
  change (flat_map (comm_round R pipes) (i :: l))
    with (comm_round R pipes i ++ flat_map (comm_round R pipes) l).
  rewrite eoc_writes_app, IH. unfold comm_round.
  change (eoc_writes (TSetEoc (Nat.eqb i (R - 1)) :: serve_pipes pipes true))
    with ([Nat.eqb i (R - 1)] ++ eoc_writes (serve_pipes pipes true)).
  rewrite eoc_writes_serve. reflexivity.
Qed.

Lemma map_eqb_seq_below (n k : nat) :
  n <= k -> map (fun i => Nat.eqb i k) (seq 0 n) = repeat false n.
Proof.
  induction n as [|n IH]; intros Hn; [reflexivity|].
  rewrite seq_S, map_app, IH by lia. simpl.
  replace (Nat.eqb n k) with false by (symmetry; apply Nat.eqb_neq; lia).
  rewrite repeat_cons. reflexivity.
Qed.

Lemma existsb_eqb_In (p : string) (l : list string) :
  In p l -> existsb (String.eqb p) l = true.
Proof.
  intros Hin. apply existsb_exists. exists p. split; [exact Hin | apply String.eqb_refl].
Qed.

(** C6: in one experience repetition, the trace is the [R] communication
    rounds followed by a final part. Every pipeline whose identifier
    contains ["referential_game"] is served once in each round, hence [R]
    times, and never in the final part; every other pipeline is served once,
    in the final part and not during the rounds. The values written to
    ["signals:end_of_communication"] are [idx_round == R-1] for the rounds
    in order: [False] on every round but the last, which writes [True]. *)
Theorem experience_repetition_serving (R : nat) (pipes : list string) (Hnd : NoDup pipes) :
  exists rounds final,
    experience_repetition R pipes = rounds ++ final /\
    rounds = flat_map (comm_round R pipes) (seq 0 R) /\
    eoc_writes final = [] /\
    (forall p, In p pipes -> is_rg_pipe p = true ->
       serve_count p (experience_repetition R pipes) = R /\
       serve_count p final = 0 /\
       forall i, i < R -> serve_count p (comm_round R pipes i) = 1) /\
    (forall p, In p pipes -> is_rg_pipe p = false ->
       serve_count p (experience_repetition R pipes) = 1 /\
       serve_count p rounds = 0 /\ serve_count p final = 1) /\
    eoc_writes (experience_repetition R pipes) = map (fun i => Nat.eqb i (R - 1)) (seq 0 R) /\
    (0 < R -> eoc_writes (experience_repetition R pipes) = repeat false (R - 1) ++ [true]).
Proof.
  exists (flat_map (comm_round R pipes) (seq 0 R)), (serve_pipes pipes false).
  assert (Hround : forall p i, serve_count p (comm_round R pipes i)
                               = serve_count p (serve_pipes pipes true)) by reflexivity.
  assert (Heoc : eoc_writes (experience_repetition R pipes)
                 = map (fun i => Nat.eqb i (R - 1)) (seq 0 R)).
  { unfold experience_repetition. rewrite eoc_writes_app, eoc_writes_rounds, eoc_writes_serve.
    apply app_nil_r. }
  split; [reflexivity|]. split; [reflexivity|]. split; [apply eoc_writes_serve|].
  split; [|split; [|split; [exact Heoc|]]].
  - intros p Hin Hrg.
    assert (H1 : serve_count p (serve_pipes pipes true) = 1).
    { rewrite (serve_count_serve_pipes p pipes true Hnd), existsb_eqb_In, Hrg by exact Hin.
      reflexivity. }
    assert (H0 : serve_count p (serve_pipes pipes false) = 0).
    { rewrite (serve_count_serve_pipes p pipes false Hnd), existsb_eqb_In, Hrg by exact Hin.
      reflexivity. }
    split; [|split; [exact H0|]].
    + unfold experience_repetition. rewrite serve_count_app, serve_count_rounds, H1, H0, length_seq.
      lia.
    + intros i _. rewrite Hround. exact H1.
  - intros p Hin Hrg.
    assert (H1 : serve_count p (serve_pipes pipes false) = 1).
    { rewrite (serve_count_serve_pipes p pipes false Hnd), existsb_eqb_In, Hrg by exact Hin.
      reflexivity. }
    assert (H0 : serve_count p (serve_pipes pipes true) = 0).
    { rewrite (serve_count_serve_pipes p pipes true Hnd), existsb_eqb_In, Hrg by exact Hin.
      reflexivity. }
    assert (Hr : serve_count p (flat_map (comm_round R pipes) (seq 0 R)) = 0).
    { rewrite serve_count_rounds, H0. lia. }
    split; [|split; [exact Hr | exact H1]].
    unfold experience_repetition. rewrite serve_count_app, Hr, H1. reflexivity.
  - intros HR. rewrite Heoc.
    destruct R as [|R]; [lia|]. replace (S R - 1) with R by lia.
    rewrite seq_S, map_app, map_eqb_seq_below by lia. simpl.
    rewrite Nat.eqb_refl. reflexivity.
Qed.

Lemma experience_repetition_serving_witness :
  exists rounds final,
    experience_repetition 3 ["referential_game"; "logger"]%string = rounds ++ final /\
    rounds = flat_map (comm_round 3 ["referential_game"; "logger"]%string) (seq 0 3) /\
    eoc_writes final = [] /\
    (forall p, In p ["referential_game"; "logger"]%string -> is_rg_pipe p = true ->
       serve_count p (experience_repetition 3 ["referential_game"; "logger"]%string) = 3 /\
       serve_count p final = 0 /\
       forall i, i < 3 -> serve_count p (comm_round 3 ["referential_game"; "logger"]%string i) = 1) /\
    (forall p, In p ["referential_game"; "logger"]%string -> is_rg_pipe p = false ->
       serve_count p (experience_repetition 3 ["referential_game"; "logger"]%string) = 1 /\
       serve_count p rounds = 0 /\ serve_count p final = 1) /\
    eoc_writes (experience_repetition 3 ["referential_game"; "logger"]%string)
      = map (fun i => Nat.eqb i (3 - 1)) (seq 0 3) /\
    (0 < 3 -> eoc_writes (experience_repetition 3 ["referential_game"; "logger"]%string)
               = repeat false (3 - 1) ++ [true]).
Proof.
  apply (experience_repetition_serving 3 ["referential_game"; "logger"]%string).
  constructor; [|constructor; [|constructor]].
  - intros Hin. apply list_elem_of_In in Hin. destruct Hin as [H|[]]. discriminate H.
  - intros Hin. apply list_elem_of_In in Hin. destruct Hin.
Defined.

(* ===================================================================== *)
(** ** Checkpoint persistence failures *)
(* ===================================================================== *)

Lemma io_seq_ok (x y : io) :
  snd x = None -> io_seq x y = (fst x ++ fst y, snd y).
Proof. intros H. unfold io_seq. rewrite H. reflexivity. Qed.

Lemma handled_app_l (t1 t2 : list ckpt_action) (a : artifact) :
  handled t1 a -> handled (t1 ++ t2) a.
Proof.
  intros [H|[e H]]; [left|right; exists e]; apply in_or_app; left; exact H.
Qed.

Lemma handled_app_r (t1 t2 : list ckpt_action) (a : artifact) :
  handled t2 a -> handled (t1 ++ t2) a.
Proof.
  intros [H|[e H]]; [left|right; exists e]; apply in_or_app; right; exact H.
Qed.

Lemma guarded_ok (fails : artifact -> option pyexc) (a : artifact) :
  snd (guarded fails a) = None /\ handled (fst (guarded fails a)) a /\
  forall b, handled (fst (guarded fails a)) b -> b = a.
Proof.
  unfold guarded, handled. destruct (fails a) as [e|]; simpl.
  - split; [reflexivity|]. split; [right; exists e; left; reflexivity|].
    intros b [[H|[]]|[e' [H|[]]]]; [discriminate H | injection H as -> _; reflexivity].
  - split; [reflexivity|]. split; [left; left; reflexivity|].
    intros b [[H|[]]|[e' [H|[]]]]; [injection H as ->; reflexivity | discriminate H].
Qed.

Lemma load_modules_ok (fails : artifact -> option pyexc) (ids : list string) :
  snd (load_modules fails ids) = None /\
  forall i, In i ids -> handled (fst (load_modules fails ids)) (AModule i).
Proof.
  induction ids as [|i ids [IHs IHh]]; simpl; [split; [reflexivity | intros _ []]|].
  destruct (guarded_ok fails (AModule i)) as [Hs [Hh _]].
  rewrite io_seq_ok by exact Hs. simpl. split; [exact IHs|].
  intros j [<-|Hj]; [apply handled_app_l; exact Hh | apply handled_app_r; exact (IHh j Hj)].
Qed.

Lemma save_modules_prefix (fails : artifact -> option pyexc) (pre post : list string)
    (m : string) (e : pyexc) :
  (forall x, In x pre -> fails (AModule x) = None) -> fails (AModule m) = Some e ->
  save_modules fails (pre ++ m :: post) = (map (fun x => Done (AModule x)) pre, Some e).
Proof.
  intros Hpre Hm. induction pre as [|x pre IH]; simpl.
  - rewrite Hm. reflexivity.
  - rewrite (Hpre x (or_introl eq_refl)).
    rewrite IH by (intros y Hy; exact (Hpre y (or_intror Hy))). reflexivity.
Qed.

(** C7: [load] catches every failure: it returns normally and handles the
    configuration, every module file found, the pipelines and the signals.
    [save] does not: when a module's save raises [e] (every module before it
    saving fine), [save] raises [e] after persisting or logging the
    configuration and saving the modules before it; that module's failure
    is not logged, and the pipelines and signals are neither saved nor
    logged. *)
Theorem save_module_failure_aborts (fails : artifact -> option pyexc)
    (pre post : list string) (m : string) (e : pyexc)
    (Hpre : forall x, In x pre -> fails (AModule x) = None)
    (Hm : fails (AModule m) = Some e) :
  save fails (pre ++ m :: post)
    = (fst (save_config fails) ++ map (fun x => Done (AModule x)) pre, Some e) /\
  ~ handled (fst (save fails (pre ++ m :: post))) (AModule m) /\
  ~ handled (fst (save fails (pre ++ m :: post))) APipelines /\
  ~ handled (fst (save fails (pre ++ m :: post))) ASignals /\
  (forall module_ids,
     snd (load fails module_ids) = None /\
     forall a, In a (AConfig :: APipelines :: ASignals :: map AModule module_ids) ->
       handled (fst (load fails module_ids)) a).
Proof.
  destruct (guarded_ok fails AConfig) as [Hcs [_ Hconly]].
  assert (Hsave : save fails (pre ++ m :: post)
    = (fst (save_config fails) ++ map (fun x => Done (AModule x)) pre, Some e)).
  { unfold save. rewrite io_seq_ok by exact Hcs.
    unfold io_seq at 1. rewrite save_modules_prefix with (e := e) by assumption.
    reflexivity. }
  assert (Hnot : forall b, b <> AConfig -> (forall x, In x pre -> b <> AModule x) ->
            ~ handled (fst (save fails (pre ++ m :: post))) b).
  { intros b Hb Hbm Hh. rewrite Hsave in Hh. simpl in Hh.
    destruct Hh as [H|[e' H]]; apply in_app_or in H as [H|H].
    - apply Hb. apply Hconly. left. exact H.
    - apply in_map_iff in H as [x [Hx Hin]]. injection Hx as <-.
      exact (Hbm x Hin eq_refl).
    - apply Hb. apply Hconly. right. exists e'. exact H.
    - apply in_map_iff in H as [x [Hx _]]. discriminate Hx. }
  split; [exact Hsave|].
  split; [|split; [|split]].
  - apply Hnot; [discriminate|]. intros x Hx Heq. injection Heq as <-.
    rewrite (Hpre m Hx) in Hm. discriminate Hm.
  - apply Hnot; [discriminate|]. intros x _ Heq. discriminate Heq.
  - apply Hnot; [discriminate|]. intros x _ Heq. discriminate Heq.
  - intros ids.
    destruct (guarded_ok fails AConfig) as [Hc1 [Hc2 _]].
    destruct (guarded_ok fails APipelines) as [Hp1 [Hp2 _]].
    destruct (guarded_ok fails ASignals) as [Hg1 [Hg2 _]].
    destruct (load_modules_ok fails ids) as [Hm1 Hm2].
    unfold load, load_config, load_pipelines, load_signals.
    rewrite (io_seq_ok (guarded fails AConfig)) by exact Hc1.
    rewrite (io_seq_ok (load_modules fails ids)) by exact Hm1.
    rewrite (io_seq_ok (guarded fails APipelines)) by exact Hp1.
    simpl. split; [exact Hg1|].
    intros a [<-|[<-|[<-|Ha]]].
    + apply handled_app_l. exact Hc2.
    + apply handled_app_r, handled_app_r, handled_app_l. exact Hp2.
    + apply handled_app_r, handled_app_r, handled_app_r. exact Hg2.
    + apply in_map_iff in Ha as [i [<- Hi]].
      apply handled_app_r, handled_app_l. exact (Hm2 i Hi).
Qed.

Lemma save_module_failure_aborts_witness :
  save ex_fails ["agent"]%string = ([Done AConfig], Some OSError) /\
  ~ handled (fst (save ex_fails ["agent"]%string)) APipelines /\
  ~ handled (fst (save ex_fails ["agent"]%string)) ASignals.
Proof.
  destruct (save_module_failure_aborts ex_fails [] [] "agent"%string OSError)
    as [Hs [_ [Hp [Hg _]]]].
  - intros x [].
  - reflexivity.
  - split; [exact Hs|]. split; [exact Hp | exact Hg].
Defined.

(* ===================================================================== *)
(** ** Further properties of DualLabeledDataset *)
(* ===================================================================== *)

Lemma dict_in_get {V} (d : list (Z * V)) (k : Z) :
  In k (dict_keys d) -> exists v, dict_get d k = Some v.
Proof.
  induction d as [|[k0 v0] d IH]; simpl; [intros []|].
  intros Hk. destruct (Z.eqb_spec k k0) as [->|Hne]; [exists v0; reflexivity|].
  apply IH. destruct Hk as [H|H]; [congruence|exact H].
Qed.

Lemma filter_nonempty_iff {A} (f : A -> bool) (l : list A) :
  List.filter f l <> [] <-> exists x, In x l /\ f x = true.
Proof.
  split.
  - intros H. destruct (List.filter f l) as [|x r] eqn:E; [congruence|].
    exists x. apply filter_In. rewrite E. left. reflexivity.
  - intros [x Hx] E. apply filter_In in Hx. rewrite E in Hx. destruct Hx.
Qed.

(** A class is a key of a dataset's class map exactly when some index of
    the dataset has that class. *)
Lemma build_classes_some (d : dataset) (off : nat) (cl : Z) :
  (exists v, dict_get (build_classes d off) cl = Some v) <->
  exists i, i < ds_len d /\ ds_getclass d i = cl.
Proof.
  rewrite build_classes_get. simpl.
  set (fl := List.filter (fun i => Z.eqb (ds_getclass d i) cl) (seq 0 (ds_len d))).
  assert (Hiff : fl <> [] <-> exists i, i < ds_len d /\ ds_getclass d i = cl).
  { unfold fl. rewrite filter_nonempty_iff. split.
    - intros [x [Hx Hf]]. apply in_seq in Hx. apply Z.eqb_eq in Hf. exists x. split; [lia|exact Hf].
    - intros [x [Hx Hf]]. exists x. split; [apply in_seq; lia|apply Z.eqb_eq; exact Hf]. }
  rewrite <- Hiff. destruct fl as [|x r]; simpl.
  - split; [intros [v Hv]; discriminate Hv | intros H; exfalso; apply H; reflexivity].
  - split; [intros _; discriminate | intros _; eexists; reflexivity].
Qed.

Lemma merge_nodup (train : list (Z * list nat)) :
  forall T : list (Z * list nat),
  NoDup (dict_keys T) -> NoDup (dict_keys (merge_train_into_test train T)).
Proof.
  unfold merge_train_into_test.
  induction train as [|[cl idxs] tr IH]; intros T HT; simpl; [exact HT|].
  apply IH.
  assert (Hinner : forall T', NoDup (dict_keys T') ->
            NoDup (dict_keys (fold_left (fun tc i => dict_set tc cl (default [] (dict_get tc cl) ++ [i]))
                                        idxs T'))).
  { induction idxs as [|i idxs IHi]; intros T' H'; simpl; [exact H'|].
    apply IHi. apply dict_set_nodup. exact H'. }
  apply Hinner. destruct (dict_get T cl); [exact HT|]. apply dict_set_nodup. exact HT.
Qed.

(** [x in set_indices] after [for class_idx in from: set_indices |= set(classes[class_idx])]. *)
Lemma union_classes_spec (cls : list (Z * list nat)) (from : list Z) :
  forall (acc U : gset nat),
  union_classes cls acc from = Ret U ->
  forall x, x ∈ U <-> x ∈ acc \/ exists c l, In c from /\ dict_get cls c = Some l /\ In x l.
Proof.
  induction from as [|c from IH]; intros acc U H x; simpl in H.
  - injection H as <-. split; [intros Hx; left; exact Hx|].
    intros [Hx|(c & l & [] & _)]. exact Hx.
  - destruct (dict_get cls c) as [l|] eqn:Ec; [|discriminate H].
    rewrite (IH _ _ H x). rewrite elem_of_union, elem_of_list_to_set, list_elem_of_In.
    split.
    + intros [[Hx|Hx]|(c' & l' & Hc' & Hg & Hx)].
      * left. exact Hx.
      * right. exists c, l. split; [left; reflexivity|]. split; [exact Ec|exact Hx].
      * right. exists c', l'. split; [right; exact Hc'|]. split; [exact Hg|exact Hx].
    + intros [Hx|(c' & l' & [<-|Hc'] & Hg & Hx)].
      * left. left. exact Hx.
      * left. right. rewrite Ec in Hg. injection Hg as <-. exact Hx.
      * right. exists c', l'. split; [exact Hc'|]. split; [exact Hg|exact Hx].
Qed.

Lemma union_classes_missing (cls : list (Z * list nat)) (from : list Z) (c : Z) :
  In c from -> dict_get cls c = None ->
  forall acc, union_classes cls acc from = Exc KeyError.
Proof.
  induction from as [|c0 from IH]; intros Hin Hc acc; [destruct Hin|]. simpl.
  destruct (dict_get cls c0) as [l|] eqn:E; [|reflexivity].
  destruct Hin as [<-|Hin]; [congruence|]. exact (IH Hin Hc _).
Qed.

Lemma union_classes_ok (cls : list (Z * list nat)) (from : list Z) :
  (forall c, In c from -> exists l, dict_get cls c = Some l) ->
  forall acc, exists U, union_classes cls acc from = Ret U.
Proof.
  induction from as [|c from IH]; intros H acc; simpl; [eexists; reflexivity|].
  destruct (H c (or_introl eq_refl)) as [l ->]. apply IH.
  intros c' Hc'. exact (H c' (or_intror Hc')).
Qed.

(** The union over all keys always succeeds. *)
Lemma union_all_ok (cls : list (Z * list nat)) (acc : gset nat) :
  exists U, union_classes cls acc (dict_keys cls) = Ret U.
Proof. apply union_classes_ok. intros c Hc. exact (dict_in_get cls c Hc). Qed.

(** The working set of any pass is within the union over all classes. *)
Lemma union_sub_all (cls : list (Z * list nat)) (from : list Z) (U1 U2 : gset nat) :
  union_classes cls ∅ from = Ret U1 ->
  union_classes cls ∅ (dict_keys cls) = Ret U2 -> U1 ⊆ U2.
Proof.
  intros H1 H2 x Hx. apply (union_classes_spec _ _ _ _ H1) in Hx.
  apply (union_classes_spec _ _ _ _ H2).
  destruct Hx as [Hx|(c & l & _ & Hg & Hl)]; [left; exact Hx|].
  right. exists c, l. split; [exact (dict_get_in _ _ _ Hg)|]. split; [exact Hg|exact Hl].
Qed.

Lemma draw_prefix (rs : nat -> nat) (n : nat) :
  forall (k : nat) (s : gset nat) (acc l : list nat),
  draw rs k n s acc = Ret l -> exists l', l = acc ++ l' /\ forall x, In x l' -> x ∈ s.
Proof.
  induction n as [|n IH]; intros k s acc l H; simpl in H.
  - injection H as <-. exists []. split; [rewrite app_nil_r; reflexivity|intros x []].
  - destruct (elements s) as [|y ys] eqn:Es; [discriminate H|].
    destruct (IH _ _ _ _ H) as [l' [-> Hl']].
    set (chosen := nth (rs k mod length (y :: ys)) (y :: ys) 0) in *.
    exists (chosen :: l'). split; [rewrite <- app_assoc; reflexivity|].
    intros x [<-|Hx].
    + apply elem_of_elements. rewrite Es. apply list_elem_of_In. apply nth_In.
      apply Nat.mod_upper_bound. simpl. lia.
    + specialize (Hl' x Hx). set_solver.
Qed.

(** Whatever the number of passes, the working set [sample_loop] returns
    consists of indices listed under some class of the map. *)
Lemma sample_loop_in_classes (fuel : nat) :
  forall cls nd mode g from_class not_enough excepts evs s n evs',
  sample_loop fuel cls nd mode g from_class not_enough excepts evs = Ret (s, n, evs') ->
  forall x, x ∈ s -> exists c l, dict_get cls c = Some l /\ In x l.
Proof.
  induction fuel as [|fuel IH]; intros cls nd mode g from_class not_enough excepts evs s n evs' H x Hx;
    [discriminate H|].
  cbn [sample_loop] in H.
  destruct (union_classes cls ∅ _) as [U| |] eqn:HU; cbn [obind] in H; try discriminate H.
  destruct (sdict_get nd mode) as [m|]; cbn [obind] in H; [|discriminate H].
  rewrite <- (remove_target_either (remove_excepts U excepts) g) in H.
  destruct (decide (g ∈ remove_excepts U excepts)).
  - destruct (Nat.ltb _ m).
    + exact (IH _ _ _ _ _ _ _ _ _ _ _ H x Hx).
    + injection H as <- _ _.
      assert (HxU : x ∈ U) by (destruct excepts; simpl in Hx; set_solver).
      apply (union_classes_spec _ _ _ _ HU) in HxU.
      destruct HxU as [Hx'|(c & l & _ & Hg & Hl)]; [set_solver|exists c, l; split; assumption].
  - destruct (Nat.ltb _ m).
    + exact (IH _ _ _ _ _ _ _ _ _ _ _ H x Hx).
    + injection H as <- _ _.
      assert (HxU : x ∈ U) by (destruct excepts; simpl in Hx; set_solver).
      apply (union_classes_spec _ _ _ _ HU) in HxU.
      destruct HxU as [Hx'|(c & l & _ & Hg & Hl)]; [set_solver|exists c, l; split; assumption].
Qed.

(** [nbr_classes] counts the distinct class labels of the two datasets:
    it is the length of a duplicate-free list holding exactly the classes
    of some train index or some test index. *)
Theorem nbr_classes_distinct_labels (train test : dataset) (mode : string)
    (nbr_distractors : list (string * nat)) :
  exists L : list Z,
    NoDup L /\
    length L = dl_nbr_classes (DualLabeledDataset_init train test mode nbr_distractors) /\
    forall cl, In cl L <->
      (exists i, i < ds_len train /\ ds_getclass train i = cl) \/
      (exists i, i < ds_len test /\ ds_getclass test i = cl).
Proof.
  set (T := merge_train_into_test (build_classes train 0) (build_classes test (ds_len train))).
  exists (dict_keys T). split; [|split; [reflexivity|]].
  - apply merge_nodup. apply build_classes_nodup.
  - intros cl. rewrite <- (build_classes_some train 0), <- (build_classes_some test (ds_len train)).
    split.
    + intros Hin. destruct (dict_in_get T cl Hin) as [v Hv]. unfold T in Hv.
      rewrite (merge_get _ (build_classes_nodup train 0)) in Hv.
      destruct (dict_get (build_classes train 0) cl) as [tr|] eqn:Etr.
      * left. exists tr. reflexivity.
      * right. exists v. exact Hv.
    + intros H. apply (dict_get_in T cl (default [] (dict_get T cl))). unfold T.
      rewrite (merge_get _ (build_classes_nodup train 0)).
      destruct H as [[v Hv]|[v Hv]].
      * rewrite Hv. reflexivity.
      * destruct (dict_get (build_classes train 0) cl); [reflexivity|]. rewrite Hv. reflexivity.
Qed.

(** [sample] raises [KeyError] when [from_class] names a class absent from
    the active class map ([classes[class_idx]]), and, when the candidate
    classes are all present, when the distractor counts have no entry for
    the current mode ([self.nbr_distractors[self.mode]]). *)
Theorem sample_key_errors (ds : dual_ds) (idx : nat) (from_class : option (list Z))
    (excepts : option (list nat)) (target_only : bool) (rs : nat -> nat) (fuel : nat) :
  1 <= fuel ->
  ((exists l c, from_class = Some l /\ In c l /\ dict_get (active_classes ds) c = None) ->
   sample ds idx from_class excepts target_only rs fuel = Exc KeyError) /\
  ((forall c, In c (first_candidates (active_classes ds) from_class) ->
      exists l, dict_get (active_classes ds) c = Some l) ->
   sdict_get (dl_nbr_distractors ds) (dl_mode ds) = None ->
   sample ds idx from_class excepts target_only rs fuel = Exc KeyError).
Proof.
  intros Hf. destruct fuel as [|fuel]; [lia|].
  split.
  - intros (l & c & -> & Hc & Hg).
    unfold sample, sample_indices. cbn [sample_loop].
    rewrite (union_classes_missing _ l c Hc Hg). reflexivity.
  - intros Hall Hn.
    destruct (union_classes_ok _ _ Hall ∅) as [U HU].
    unfold sample, sample_indices. cbn [sample_loop].
    replace (match from_class with Some l => if false then dict_keys (active_classes ds) else l
             | None => dict_keys (active_classes ds) end)
      with (first_candidates (active_classes ds) from_class) by (destruct from_class; reflexivity).
    rewrite HU. cbn [obind]. rewrite Hn. reflexivity.
Qed.

Lemma sample_key_errors_witness :
  sample ex_ds 0 (Some [7%Z]) None false (fun k => k) 1 = Exc KeyError /\
  sample (set_mode ex_ds "valid") 0 None None false (fun k => k) 1 = Exc KeyError.
Proof.
  split.
  - apply (proj1 (sample_key_errors ex_ds 0 (Some [7%Z]) None false (fun k => k) 1 (le_n 1))).
    exists [7%Z], 7%Z. split; [reflexivity|]. split; [left; reflexivity|]. by_eval.
  - apply (proj2 (sample_key_errors (set_mode ex_ds "valid") 0 None None false (fun k => k) 1 (le_n 1))).
    + intros c Hc. apply dict_in_get. exact Hc.
    + by_eval.
Defined.

Lemma sample_loop_excepted_target (fuel : nat) :
  forall cls nd mode g from_class not_enough ex evs s n evs',
  In g ex ->
  sample_loop fuel cls nd mode g from_class not_enough (Some ex) evs = Ret (s, n, evs') ->
  exists rest, evs' = evs ++ EvRemoveTargetFailed :: EvDebuggerBreak :: rest.
Proof.
  induction fuel as [|fuel IH]; intros cls nd mode g from_class not_enough ex evs s n evs' Hg H;
    [discriminate H|].
  cbn [sample_loop] in H.
  destruct (union_classes cls ∅ _) as [U| |]; cbn [obind] in H; try discriminate H.
  destruct (sdict_get nd mode) as [m|]; cbn [obind] in H; [|discriminate H].
  rewrite decide_False in H.
  2:{ simpl. apply list_elem_of_In in Hg. set_solver. }
  destruct (Nat.ltb _ m).
  - destruct (IH _ _ _ _ _ _ _ _ _ _ _ Hg H) as [rest ->].
    exists ([EvWarnNotEnough] ++ EvRemoveTargetFailed :: EvDebuggerBreak :: rest).
    rewrite <- !app_assoc. reflexivity.
  - injection H as _ _ <-. exists []. reflexivity.
Qed.

(** When the target is among the excluded indices, [excepts] removes it
    from the working set first, so the [remove] of the target always fails:
    the exception is printed and the breakpoint is hit (the first events);
    if the session goes on and [sample] returns, the excluded target is
    still the first index. *)
Theorem sample_target_excepted (ds : dual_ds) (idx : nat) (from_class : option (list Z))
    (ex : list nat) (target_only : bool) (rs : nat -> nat) (fuel : nat) (out : sample_out) :
  In (target_global ds idx) ex ->
  sample ds idx from_class (Some ex) target_only rs fuel = Ret out ->
  head (so_indices out) = Some (target_global ds idx) /\
  exists rest, so_events out = EvRemoveTargetFailed :: EvDebuggerBreak :: rest.
Proof.
  intros Hin Hs.
  destruct (sample_indices ds idx from_class (Some ex) rs fuel) as [[indices evs]| |] eqn:Hi;
    [|unfold sample in Hs; rewrite Hi in Hs; discriminate Hs
     |unfold sample in Hs; rewrite Hi in Hs; discriminate Hs].
  destruct (sample_indices_returned _ _ _ _ _ _ _ _ _ _ Hi Hs) as [-> ->].
  unfold sample_indices in Hi.
  destruct (sample_loop fuel _ _ _ _ _ _ _ _) as [[[s n] evs1]| |] eqn:Hl;
    cbn [obind] in Hi; try discriminate Hi.
  destruct (draw rs 0 n s [target_global ds idx]) as [l| |] eqn:Hd; cbn [obind] in Hi;
    try discriminate Hi.
  injection Hi as <- <-.
  destruct (draw_prefix _ _ _ _ _ _ Hd) as [l' [-> _]].
  split; [reflexivity|].
  exact (sample_loop_excepted_target _ _ _ _ _ _ _ _ _ _ _ _ Hin Hl).
Qed.

Lemma sample_target_excepted_witness :
  exists out,
    sample ex_ds 0 None (Some [0]) false (fun k => k) 1 = Ret out /\
    head (so_indices out) = Some 0 /\
    exists rest, so_events out = EvRemoveTargetFailed :: EvDebuggerBreak :: rest.
Proof.
  eexists. split; [vm_compute; reflexivity|].
  apply (sample_target_excepted ex_ds 0 None [0] false (fun k => k) 1).
  - left. reflexivity.
  - vm_compute. reflexivity.
Defined.

Lemma sample_loop_widened_diverges (cls : list (Z * list nat)) (nd : list (string * nat))
    (mode : string) (g n : nat) (excepts : option (list nat)) :
  sdict_get nd mode = Some n ->
  (forall U, union_classes cls ∅ (dict_keys cls) = Ret U ->
     size (remove_excepts U excepts ∖ {[g]}) < n) ->
  forall fuel fc evs, sample_loop fuel cls nd mode g (Some fc) true excepts evs = Diverge.
Proof.
  intros Hn Hsmall fuel. induction fuel as [|fuel IH]; intros fc evs; [reflexivity|].
  destruct (union_all_ok cls ∅) as [U HU].
  rewrite (sample_loop_pass fuel cls nd mode g (Some fc) true excepts evs U n HU Hn).
  cbv zeta. destruct (Nat.ltb_spec (size (remove_excepts U excepts ∖ {[g]})) n) as [_|Hge].
  - apply IH.
  - specialize (Hsmall U HU). lia.
Qed.

Lemma remove_excepts_mono (U1 U2 : gset nat) (excepts : option (list nat)) :
  U1 ⊆ U2 -> remove_excepts U1 excepts ⊆ remove_excepts U2 excepts.
Proof. destruct excepts; simpl; set_solver. Qed.

(** The [while] loop of [sample] has no bound: when even all classes of
    the active map give fewer than [n] indices besides the target (and the
    caller's classes exist), every pass warns and retries, so [sample]
    never returns, whatever the number of passes allowed. *)
Theorem sample_diverges_when_too_few (ds : dual_ds) (idx : nat)
    (from_class : option (list Z)) (excepts : option (list nat)) (target_only : bool)
    (rs : nat -> nat) (n : nat) :
  sdict_get (dl_nbr_distractors ds) (dl_mode ds) = Some n ->
  (forall c, In c (first_candidates (active_classes ds) from_class) ->
     exists l, dict_get (active_classes ds) c = Some l) ->
  (forall U, union_classes (active_classes ds) ∅ (dict_keys (active_classes ds)) = Ret U ->
     size (remove_excepts U excepts ∖ {[target_global ds idx]}) < n) ->
  forall fuel, sample ds idx from_class excepts target_only rs fuel = Diverge.
Proof.
  intros Hn Hcand Hsmall fuel.
  unfold sample, sample_indices.
  set (cls := active_classes ds) in *. set (g := target_global ds idx) in *.
  assert (Hl : sample_loop fuel cls (dl_nbr_distractors ds) (dl_mode ds) g from_class false
                 excepts [] = Diverge).
  { destruct fuel as [|fuel]; [reflexivity|].
    destruct (union_classes_ok _ _ Hcand ∅) as [U1 HU1].
    destruct (union_all_ok cls ∅) as [U2 HU2].
    assert (HU1' : union_classes cls ∅ (match from_class with
                       | Some l => if false then dict_keys cls else l
                       | None => dict_keys cls end) = Ret U1)
      by (destruct from_class; exact HU1).
    rewrite (sample_loop_pass fuel cls _ _ g from_class false excepts [] U1 n HU1' Hn).
    cbv zeta.
    assert (Hsz : size (remove_excepts U1 excepts ∖ {[g]}) < n).
    { pose proof (Hsmall U2 HU2) as H2.
      assert (Hsub : remove_excepts U1 excepts ∖ {[g]} ⊆ remove_excepts U2 excepts ∖ {[g]}).
      { pose proof (remove_excepts_mono U1 U2 excepts (union_sub_all _ _ _ _ HU1 HU2)). set_solver. }
      pose proof (subseteq_size _ _ Hsub). lia. }
    destruct (Nat.ltb_spec (size (remove_excepts U1 excepts ∖ {[g]})) n) as [_|]; [|lia].
    apply (sample_loop_widened_diverges cls _ _ g n excepts Hn Hsmall). }
  rewrite Hl. reflexivity.
Qed.

Lemma sample_diverges_when_too_few_witness :
  sample (DualLabeledDataset_init ex_train ex_test "train" [("train", 10)]%string)
    0 None None false (fun k => k) 5 = Diverge.
Proof.
  apply (sample_diverges_when_too_few
           (DualLabeledDataset_init ex_train ex_test "train" [("train", 10)]%string)
           0 None None false (fun k => k) 10).
  - by_eval.
  - intros c Hc. apply dict_in_get. exact Hc.
  - intros U HU. vm_compute in HU. injection HU as <-. by_eval.
Defined.

Lemma build_classes_bound (d : dataset) (off : nat) (c : Z) (l : list nat) (i : nat) :
  dict_get (build_classes d off) c = Some l -> In i l -> off <= i < off + ds_len d.
Proof.
  rewrite build_classes_get. simpl. intros H Hi.
  assert (Hl : l = map (fun j => off + j)
                     (List.filter (fun j => Z.eqb (ds_getclass d j) c) (seq 0 (ds_len d)))).
  { destruct (map _ _); [discriminate H|injection H as <-; reflexivity]. }
  subst l. apply in_map_iff in Hi as [j [<- Hj]]. apply filter_In in Hj as [Hj _].
  apply in_seq in Hj. lia.
Qed.

(** Every distractor [sample] chooses is listed under a class of the
    active map, so it is a valid global index: below [len(train)] in a
    mode without ["test"], below [len(train) + len(test)] otherwise. *)
Theorem sample_indices_in_range (train test : dataset) (mode0 mode : string)
    (nbr_distractors : list (string * nat)) (idx : nat) (from_class : option (list Z))
    (excepts : option (list nat)) (rs : nat -> nat) (fuel : nat)
    (indices : list nat) (evs : list event) :
  let ds := set_mode (DualLabeledDataset_init train test mode0 nbr_distractors) mode in
  sample_indices ds idx from_class excepts rs fuel = Ret (indices, evs) ->
  forall i, In i (tail indices) ->
    (exists c l, dict_get (active_classes ds) c = Some l /\ In i l) /\
    i < (if str_contains "test" mode then ds_len train + ds_len test else ds_len train).
Proof.
  intros ds H i Hi. unfold sample_indices in H.
  destruct (sample_loop fuel _ _ _ _ _ _ _ _) as [[[s n] evs1]| |] eqn:Hl;
    cbn [obind] in H; try discriminate H.
  destruct (draw rs 0 n s _) as [l| |] eqn:Hd; cbn [obind] in H; try discriminate H.
  injection H as <- _.
  destruct (draw_prefix _ _ _ _ _ _ Hd) as [l' [-> Hl']].
  simpl in Hi. specialize (Hl' i Hi).
  destruct (sample_loop_in_classes _ _ _ _ _ _ _ _ _ _ _ _ Hl i Hl') as (c & lc & Hc & Hic).
  split; [exists c, lc; split; assumption|].
  unfold ds, active_classes, set_mode in Hc. simpl in Hc.
  destruct (str_contains "test" mode).
  - rewrite (merge_get _ (build_classes_nodup train 0)) in Hc.
    destruct (dict_get (build_classes train 0) c) as [tr|] eqn:Etr.
    + injection Hc as <-. apply in_app_or in Hic as [Hic|Hic].
      * destruct (dict_get (build_classes test (ds_len train)) c) as [te|] eqn:Ete;
          [|destruct Hic].
        pose proof (build_classes_bound _ _ _ _ _ Ete Hic). lia.
      * pose proof (build_classes_bound _ _ _ _ _ Etr Hic). lia.
    + pose proof (build_classes_bound _ _ _ _ _ Hc Hic). lia.
  - pose proof (build_classes_bound _ _ _ _ _ Hc Hic). lia.
Qed.

Lemma sample_indices_in_range_witness :
  exists indices evs,
    sample_indices (set_mode ex_ds "test") 0 None None (fun k => k) 1 = Ret (indices, evs) /\
    forall i, In i (tail indices) ->
      (exists c l, dict_get (active_classes (set_mode ex_ds "test")) c = Some l /\ In i l) /\
      i < (if str_contains "test" "test" then ds_len ex_train + ds_len ex_test
           else ds_len ex_train).
Proof.
  eexists. exists []. split; [vm_compute; reflexivity|].
  apply (sample_indices_in_range ex_train ex_test "train" "test" [("train", 1); ("test", 1)]%string
           0 None None (fun k => k) 1 _ []).
  vm_compute. reflexivity.
Defined.

(* ===================================================================== *)
(** ** The payload of sample *)
(* ===================================================================== *)

Lemma payload_loop_cons (ds : dual_ds) (i : nat) (rest : list nat) (tp : bool) (st : store) :
  payload_loop ds (i :: rest) tp st =
  (it <- item_at ds i ;;
   st' <- register_item (dl_nbr_classes ds) st it ;;
   if tp then Ret st' else payload_loop ds rest tp st').
Proof.
  cbn [payload_loop]. unfold item_at.
  destruct (if Nat.leb (ds_len (dl_train ds)) i
            then (dl_test ds, i - ds_len (dl_train ds)) else (dl_train ds, i)) as [d j].
  reflexivity.
Qed.

Lemma item_at_in (ds : dual_ds) (i : nat) (it : item) :
  item_at ds i = Ret it -> In it (ds_items (dl_train ds) ++ ds_items (dl_test ds)).
Proof.
  unfold item_at. destruct (Nat.leb _ i); destruct (nth_error _ _) as [it'|] eqn:E;
    intros H; try discriminate H; injection H as <-; apply in_or_app;
    [right|left]; exact (nth_error_In _ _ E).
Qed.

Lemma heap_get_app_lt (h h' : list (list val)) (l : nat) :
  l < length h -> heap_get (h ++ h') l = heap_get h l.
Proof. intros Hl. unfold heap_get. rewrite lookup_app_l by exact Hl. reflexivity. Qed.

Lemma heap_get_append_ne (h : list (list val)) (l l' : nat) (v : val) :
  l <> l' -> heap_get (heap_append h l v) l' = heap_get h l'.
Proof. intros Hne. unfold heap_append, heap_get. rewrite list_lookup_insert_ne by exact Hne. reflexivity. Qed.

Lemma sdict_get_in_keys {V} (d : list (string * V)) (k : string) :
  In k (map fst d) -> exists v, sdict_get d k = Some v.
Proof.
  induction d as [|[k0 v0] d IH]; simpl; [intros []|].
  intros Hk. destruct (String.eqb_spec k k0) as [->|Hne]; [exists v0; reflexivity|].
  apply IH. destruct Hk as [H|H]; [congruence|exact H].
Qed.

Lemma sdict_get_not_in_keys {V} (d : list (string * V)) (k : string) :
  ~ In k (map fst d) -> sdict_get d k = None.
Proof.
  induction d as [|[k0 v0] d IH]; simpl; [reflexivity|].
  intros Hk. destruct (String.eqb_spec k k0) as [->|Hne]; [exfalso; apply Hk; left; reflexivity|].
  apply IH. intros H. apply Hk. right. exact H.
Qed.

(** The entries of [sample_d] already present stay where they are. *)
Lemma register_keys_keep (it : item) :
  forall (st : store) (need : list (string * bool)) (k : string) (l : nat),
  sdict_get (st_dict st) k = Some l ->
  sdict_get (st_dict (fst (register_keys st need it))) k = Some l.
Proof.
  unfold register_keys.
  induction it as [|[key value] it IH]; intros st need k l Hk; simpl; [exact Hk|].
  destruct (sdict_get (st_dict st) key) as [l'|] eqn:E; apply IH; simpl; [exact Hk|].
  rewrite sdict_get_app, Hk. reflexivity.
Qed.

(** With distinct keys in the item, the ["exp_labels"] list gets exactly the
    item's label appended, and no other key comes to name it. *)
Lemma register_keys_labels (it : item) :
  NoDup (item_keys it) ->
  forall (st : store) (need : list (string * bool)),
  store_wf st ->
  sdict_get (st_dict st) "exp_labels" = Some 1 ->
  (forall k, sdict_get (st_dict st) k = Some 1 -> k = "exp_labels"%string) ->
  heap_get (st_heap (fst (register_keys st need it))) 1 =
    heap_get (st_heap st) 1 ++ match sdict_get it "exp_labels" with Some v => [v] | None => [] end /\
  (forall k, sdict_get (st_dict (fst (register_keys st need it))) k = Some 1 ->
     k = "exp_labels"%string).
Proof.
  unfold register_keys.
  induction it as [|[key value] it IH]; intros Hnd st need Hwf Hlab Honly; cbn [fold_left].
  - cbn [sdict_get]. rewrite app_nil_r. split; [reflexivity|exact Honly].
  - apply NoDup_cons in Hnd as [Hnot Hnd].
    assert (Hnot' : ~ In key (item_keys it)) by (intros H; apply Hnot, list_elem_of_In, H).
    destruct (sdict_get (st_dict st) key) as [l|] eqn:E.
    + assert (Hwf' : store_wf {| st_dict := st_dict st;
                                 st_heap := heap_append (st_heap st) l value |}).
      { intros k l' Hk. simpl in *. rewrite length_heap_append. exact (Hwf k l' Hk). }
      destruct (IH Hnd _ (sdict_set need key false) Hwf' Hlab Honly) as [H1 H2].
      split; [|exact H2]. rewrite H1. cbn [st_heap].
      change (sdict_get ((key, value) :: it) "exp_labels")
        with (if String.eqb "exp_labels" key then Some value else sdict_get it "exp_labels").
      destruct (String.eqb_spec "exp_labels" key) as [<-|Hne].
      * rewrite E in Hlab. injection Hlab as ->.
        rewrite heap_get_append by (exact (Hwf _ _ E)).
        rewrite (sdict_get_not_in_keys it "exp_labels" Hnot'), app_nil_r.
        reflexivity.
      * assert (Hl1 : l <> 1) by (intros ->; apply Hne; symmetry; exact (Honly key E)).
        rewrite heap_get_append_ne by exact Hl1. reflexivity.
    + assert (Hlen : 1 < length (st_heap st)) by exact (Hwf _ _ Hlab).
      assert (Hwf' : store_wf {| st_dict := st_dict st ++ [(key, length (st_heap st))];
                                 st_heap := st_heap st ++ [[value]] |}).
      { intros k l' Hk. simpl in *. rewrite sdict_get_app in Hk. rewrite length_app.
        simpl. destruct (sdict_get (st_dict st) k) eqn:Ek.
        - injection Hk as <-. specialize (Hwf k n Ek). lia.
        - simpl in Hk. destruct (String.eqb k key); [|discriminate]. injection Hk as <-. lia. }
      assert (Hlab' : sdict_get (st_dict st ++ [(key, length (st_heap st))]) "exp_labels" = Some 1)
        by (rewrite sdict_get_app, Hlab; reflexivity).
      assert (Honly' : forall k, sdict_get (st_dict st ++ [(key, length (st_heap st))]) k = Some 1 ->
                         k = "exp_labels"%string).
      { intros k Hk. rewrite sdict_get_app in Hk.
        destruct (sdict_get (st_dict st) k) eqn:Ek; [injection Hk as ->; exact (Honly k Ek)|].
        simpl in Hk. destruct (String.eqb k key); [|discriminate]. injection Hk as Hk. lia. }
      destruct (IH Hnd _ need Hwf' Hlab' Honly') as [H1 H2].
      split; [|exact H2]. rewrite H1. cbn [st_heap].
      change (sdict_get ((key, value) :: it) "exp_labels")
        with (if String.eqb "exp_labels" key then Some value else sdict_get it "exp_labels").
      rewrite heap_get_app_lt by exact Hlen.
      destruct (String.eqb_spec "exp_labels" key) as [<-|]; [congruence|reflexivity].
Qed.

Lemma payload_inv_append (st : store) (l : nat) (v : val) :
  payload_inv st -> sdict_get (st_dict st) "exp_latents" = Some l ->
  payload_inv {| st_dict := st_dict st; st_heap := heap_append (st_heap st) l v |} /\
  heap_get (heap_append (st_heap st) l v) 1 = heap_get (st_heap st) 1.
Proof.
  intros [Hwf [Hlab [Honly [Hla Hlv]]]] Hl.
  assert (Hl1 : l <> 1) by (intros ->; specialize (Honly _ Hl); discriminate Honly).
  split; [|apply heap_get_append_ne; congruence].
  split; [|split; [exact Hlab|split; [exact Honly|split; [exact Hla|exact Hlv]]]].
  intros k l' Hk. simpl in *. rewrite length_heap_append. exact (Hwf k l' Hk).
Qed.

Lemma payload_inv_alias (st : store) (l : nat) :
  payload_inv st -> sdict_get (st_dict st) "exp_latents" = Some l ->
  payload_inv {| st_dict := sdict_set (st_dict st) "exp_latents_values" l;
                 st_heap := st_heap st |}.
Proof.
  intros [Hwf [Hlab [Honly [Hla Hlv]]]] Hl.
  assert (Hl1 : l <> 1) by (intros ->; specialize (Honly _ Hl); discriminate Honly).
  unfold payload_inv; cbn [st_dict st_heap]. split; [|split; [|split; [|split]]].
  - intros k l' Hk. cbn [st_dict st_heap] in *. rewrite sdict_get_set in Hk.
    destruct (String.eqb k "exp_latents_values"); [injection Hk as <-; exact (Hwf _ _ Hl)|].
    exact (Hwf _ _ Hk).
  - rewrite sdict_get_set. exact Hlab.
  - intros k Hk. rewrite sdict_get_set in Hk.
    destruct (String.eqb k "exp_latents_values"); [injection Hk as ->; contradiction|].
    exact (Honly _ Hk).
  - rewrite sdict_get_set. exact Hla.
  - rewrite sdict_get_set. exists l. reflexivity.
Qed.

(** One step of the loop over [indices]: an item with distinct keys keeps
    the shape of [sample_d], has a label, and that label is appended to
    ["exp_labels"]. *)
Lemma register_item_payload (n : nat) (st st' : store) (it : item) :
  NoDup (item_keys it) -> payload_inv st -> register_item n st it = Ret st' ->
  payload_inv st' /\
  exists label, sdict_get it "exp_labels" = Some label /\
    heap_get (st_heap st') 1 = heap_get (st_heap st) 1 ++ [label].
Proof.
  intros Hnd Hinv Hr. pose proof Hinv as [Hwf [Hlab [Honly [[la Hla] [lv Hlv]]]]].
  unfold register_item in Hr.
  destruct (register_keys_spec it st (map (fun '(k, _) => (k, true)) (st_dict st)) Hwf)
    as [Hwf1 Hkeys].
  destruct (register_keys_labels it Hnd st (map (fun '(k, _) => (k, true)) (st_dict st))
              Hwf Hlab Honly) as [Hh1 Honly1].
  pose proof (register_keys_keep it st (map (fun '(k, _) => (k, true)) (st_dict st)) _ _ Hlab)
    as Hlab1.
  pose proof (register_keys_keep it st (map (fun '(k, _) => (k, true)) (st_dict st)) _ _ Hla)
    as Hla1.
  pose proof (register_keys_keep it st (map (fun '(k, _) => (k, true)) (st_dict st)) _ _ Hlv)
    as Hlv1.
  destruct (in_dec string_dec "exp_labels"%string (item_keys it)) as [Hin|Hnin].
  2:{ destruct (Hkeys _ Hnin) as [Hn _].
      destruct (register_keys st _ it) as [st1 need1]. simpl in Hn.
      rewrite sdict_get_need0, Hlab in Hn. unfold lookup_or_keyerror in Hr.
      rewrite Hn in Hr. discriminate Hr. }
  destruct (sdict_get_in_keys it "exp_labels" Hin) as [label Hlabel].
  rewrite Hlabel in Hh1.
  destruct (register_keys st _ it) as [st1 need1].
  cbn [fst snd] in Hwf1, Hh1, Honly1, Hlab1, Hla1, Hlv1.
  assert (Hinv1 : payload_inv st1)
    by (split; [exact Hwf1|split; [exact Hlab1|split; [exact Honly1|
          split; [exists la; exact Hla1|exists lv; exact Hlv1]]]]).
  assert (Hgoal : forall st2, payload_inv st2 ->
            heap_get (st_heap st2) 1 = heap_get (st_heap st1) 1 ->
            (nlv <- lookup_or_keyerror need1 "exp_latents_values" ;;
             if nlv then
               l <- lookup_or_keyerror (st_dict st2) "exp_latents" ;;
               Ret {| st_dict := sdict_set (st_dict st2) "exp_latents_values" l;
                      st_heap := st_heap st2 |}
             else Ret st2) = Ret st' ->
            payload_inv st' /\
            exists label', sdict_get it "exp_labels" = Some label' /\
              heap_get (st_heap st') 1 = heap_get (st_heap st) 1 ++ [label']).
  { intros st2 Hinv2 Hh2 H.
    unfold lookup_or_keyerror in H.
    destruct (sdict_get need1 "exp_latents_values") as [[|]|]; cbn [obind] in H;
      try discriminate H.
    - pose proof Hinv2 as [_ [_ [_ [[l2 Hl2] _]]]]. rewrite Hl2 in H. cbn [obind] in H.
      injection H as <-. split; [exact (payload_inv_alias st2 l2 Hinv2 Hl2)|].
      exists label; split; [exact Hlabel|]. simpl. rewrite Hh2. exact Hh1.
    - injection H as <-. split; [exact Hinv2|].
      exists label; split; [exact Hlabel|]. rewrite Hh2. exact Hh1. }
  unfold lookup_or_keyerror in Hr.
  destruct (sdict_get need1 "exp_labels") as [[|]|]; cbn [obind] in Hr; try discriminate Hr.
  destruct (sdict_get need1 "exp_latents") as [[|]|]; cbn [obind] in Hr; try discriminate Hr.
  - rewrite Hlabel in Hr. cbn [obind] in Hr.
    destruct (derive_latent n label) as [t| |]; cbn [obind] in Hr; try discriminate Hr.
    rewrite Hla1 in Hr. cbn [obind] in Hr.
    destruct (payload_inv_append st1 la (VTensor t) Hinv1 Hla1) as [Hinv2 Hh2].
    exact (Hgoal _ Hinv2 Hh2 Hr).
  - exact (Hgoal st1 Hinv1 eq_refl Hr).
Qed.

Lemma init_store_payload_inv : payload_inv init_store.
Proof.
  split; [exact init_store_wf|]. split; [reflexivity|].
  split; [|split; eexists; reflexivity].
  intros k Hk. cbn [init_store st_dict sdict_get] in Hk.
  destruct (String.eqb_spec k "experiences"); [discriminate Hk|].
  destruct (String.eqb_spec k "exp_labels"); [assumption|].
  destruct (String.eqb_spec k "exp_latents"); [discriminate Hk|].
  destruct (String.eqb_spec k "exp_latents_values"); discriminate Hk.
Qed.

(** The loop over [indices] reads one item per index it visits (only the
    first when [target_only]) and appends their labels, in that order, to
    ["exp_labels"]. *)
Lemma payload_loop_labels (ds : dual_ds) :
  (forall it, In it (ds_items (dl_train ds) ++ ds_items (dl_test ds)) ->
     NoDup (item_keys it)) ->
  forall (indices : list nat) (tp : bool) (st st' : store),
  payload_inv st -> payload_loop ds indices tp st = Ret st' ->
  payload_inv st' /\
  exists its,
    Forall2 (fun i it => item_at ds i = Ret it)
      (if tp then firstn 1 indices else indices) its /\
    Forall (fun it => exists v, sdict_get it "exp_labels" = Some v) its /\
    heap_get (st_heap st') 1 = heap_get (st_heap st) 1 ++ labels_of its.
Proof.
  intros Hnd indices. induction indices as [|i rest IH]; intros tp st st' Hinv H.
  - injection H as <-. split; [exact Hinv|]. exists [].
    split; [destruct tp; constructor|]. split; [constructor|]. rewrite app_nil_r. reflexivity.
  - rewrite payload_loop_cons in H.
    destruct (item_at ds i) as [it| |] eqn:Ei; cbn [obind] in H; try discriminate H.
    destruct (register_item (dl_nbr_classes ds) st it) as [st1| |] eqn:Er;
      cbn [obind] in H; try discriminate H.
    destruct (register_item_payload _ _ _ _ (Hnd it (item_at_in _ _ _ Ei)) Hinv Er)
      as [Hinv1 [label [Hlabel Hh1]]].
    assert (Hlab_it : labels_of [it] = [label])
      by (unfold labels_of; cbn [flat_map]; rewrite Hlabel; reflexivity).
    destruct tp.
    + injection H as <-. split; [exact Hinv1|]. exists [it].
      split; [constructor; [exact Ei|constructor]|].
      split; [constructor; [exists label; exact Hlabel|constructor]|].
      rewrite Hlab_it. exact Hh1.
    + destruct (IH false st1 st' Hinv1 H) as [Hinv' [its [Hf [Hl Hh]]]].
      split; [exact Hinv'|]. exists (it :: its).
      split; [constructor; [exact Ei|exact Hf]|].
      split; [constructor; [exists label; exact Hlabel|exact Hl]|].
      rewrite Hh, Hh1. unfold labels_of. cbn [flat_map]. rewrite Hlabel.
      rewrite <- app_assoc. reflexivity.
Qed.

(** Lines 164-167 replace each entry of [sample_d] by its finalised value. *)
Lemma finalize_dict_get (h : list (list val)) (d : list (string * nat)) :
  forall (d' : list (string * fval)) (k : string) (l : nat),
  finalize_dict h d = Ret d' -> sdict_get d k = Some l ->
  exists v, sdict_get d' k = Some v /\ finalize_entry (heap_get h l) = Ret v.
Proof.
  induction d as [|[k0 l0] d IH]; intros d' k l H Hk; [discriminate Hk|].
  cbn [finalize_dict] in H.
  destruct (finalize_entry (heap_get h l0)) as [v0| |] eqn:E0; cbn [obind] in H;
    try discriminate H.
  destruct (finalize_dict h d) as [rest| |] eqn:Er; cbn [obind] in H; try discriminate H.
  injection H as <-. cbn [sdict_get] in Hk |- *.
  destruct (String.eqb k k0).
  - injection Hk as <-. exists v0. split; [reflexivity|exact E0].
  - exact (IH rest k l eq_refl Hk).
Qed.

Lemma unsqueeze_experiences_other (d d' : list (string * fval)) (k : string) :
  unsqueeze_experiences d = Ret d' -> k <> "experiences"%string ->
  sdict_get d' k = sdict_get d k.
Proof.
  unfold unsqueeze_experiences, lookup_or_keyerror. intros H Hk.
  destruct (sdict_get d "experiences") as [v|]; cbn [obind] in H; [|discriminate H].
  destruct (unsqueeze1 v) as [v'| |]; cbn [obind] in H; try discriminate H.
  injection H as <-. rewrite sdict_get_set.
  destruct (String.eqb_spec k "experiences"); [contradiction|reflexivity].
Qed.

(** The ["exp_labels"] entry [sample] returns holds the labels of the
    items it read, in the order of [indices] (only the target's when
    [target_only]): every one of those items has a label, and the entry is
    that list of labels, stacked if they are tensors. This needs every
    item to have distinct keys, as a Python dict has. *)
Theorem sample_exp_labels (ds : dual_ds) (idx : nat) (from_class : option (list Z))
    (excepts : option (list nat)) (target_only : bool) (rs : nat -> nat) (fuel : nat)
    (so : sample_out) :
  (forall it, In it (ds_items (dl_train ds) ++ ds_items (dl_test ds)) ->
     NoDup (item_keys it)) ->
  sample ds idx from_class excepts target_only rs fuel = Ret so ->
  exists its v,
    Forall2 (fun i it => item_at ds i = Ret it)
      (if target_only then firstn 1 (so_indices so) else so_indices so) its /\
    Forall (fun it => exists v, sdict_get it "exp_labels" = Some v) its /\
    finalize_entry (labels_of its) = Ret v /\
    sdict_get (so_payload so) "exp_labels" = Some v.
Proof.
  intros Hnd H. unfold sample in H.
  destruct (sample_indices ds idx from_class excepts rs fuel) as [[indices evs]| |];
    cbn [obind] in H; try discriminate H.
  destruct (build_payload ds indices target_only) as [payload| |] eqn:Hb;
    cbn [obind] in H; try discriminate H.
  injection H as <-. cbn [so_indices so_payload]. unfold build_payload in Hb.
  destruct (payload_loop ds indices target_only init_store) as [st| |] eqn:Hp;
    cbn [obind] in Hb; try discriminate Hb.
  destruct (finalize_dict (st_heap st) (st_dict st)) as [d| |] eqn:Hf;
    cbn [obind] in Hb; try discriminate Hb.
  destruct (payload_loop_labels ds Hnd indices target_only init_store st
              init_store_payload_inv Hp) as [[_ [Hlab _]] [its [Hits [Hl Hh]]]].
  destruct (finalize_dict_get _ _ _ _ _ Hf Hlab) as [v [Hv Hfv]].
  exists its, v. split; [exact Hits|]. split; [exact Hl|].
  split; [rewrite Hh in Hfv; exact Hfv|].
  rewrite (unsqueeze_experiences_other d payload _ Hb) by discriminate. exact Hv.
Qed.

Lemma sample_exp_labels_witness :
  exists so, sample ex_ds 0 None None false (fun k => k) 1 = Ret so /\
  exists its v,
    Forall2 (fun i it => item_at ex_ds i = Ret it) (so_indices so) its /\
    Forall (fun it => exists v, sdict_get it "exp_labels" = Some v) its /\
    finalize_entry (labels_of its) = Ret v /\
    sdict_get (so_payload so) "exp_labels" = Some v.
Proof.
  eexists. split; [vm_compute; reflexivity|].
  apply (sample_exp_labels ex_ds 0 None None false (fun k => k) 1 _).
  - intros it Hin. vm_compute in Hin.
    repeat destruct Hin as [<-|Hin]; try contradiction;
      vm_compute; apply (bool_decide_unpack _); vm_compute; reflexivity.
  - vm_compute. reflexivity.
Defined.

(** A key of [sample_d] stays a key through the per-item step. *)
Lemma register_item_key_kept (n : nat) (st st' : store) (it : item) (k : string) :
  register_item n st it = Ret st' ->
  (exists l, sdict_get (st_dict st) k = Some l) ->
  exists l, sdict_get (st_dict st') k = Some l.
Proof.
  intros Hr [l Hk]. unfold register_item in Hr.
  pose proof (register_keys_keep it st (map (fun '(k, _) => (k, true)) (st_dict st)) _ _ Hk)
    as Hk1.
  destruct (register_keys st _ it) as [st1 need1]. cbn [fst] in Hk1.
  assert (Hfin : forall st2, st_dict st2 = st_dict st1 ->
            (nlv <- lookup_or_keyerror need1 "exp_latents_values" ;;
             if nlv then
               l <- lookup_or_keyerror (st_dict st2) "exp_latents" ;;
               Ret {| st_dict := sdict_set (st_dict st2) "exp_latents_values" l;
                      st_heap := st_heap st2 |}
             else Ret st2) = Ret st' ->
            exists l', sdict_get (st_dict st') k = Some l').
  { intros st2 Hd2 H. unfold lookup_or_keyerror in H.
    destruct (sdict_get need1 "exp_latents_values") as [[|]|]; cbn [obind] in H;
      try discriminate H.
    - destruct (sdict_get (st_dict st2) "exp_latents") as [l2|]; cbn [obind] in H;
        [|discriminate H].
      injection H as <-. cbn [st_dict]. rewrite sdict_get_set.
      destruct (String.eqb k "exp_latents_values"); [exists l2; reflexivity|].
      rewrite Hd2. exists l. exact Hk1.
    - injection H as <-. rewrite Hd2. exists l. exact Hk1. }
  unfold lookup_or_keyerror in Hr.
  destruct (sdict_get need1 "exp_labels") as [[|]|]; cbn [obind] in Hr; try discriminate Hr.
  destruct (sdict_get need1 "exp_latents") as [[|]|]; cbn [obind] in Hr; try discriminate Hr.
  - destruct (sdict_get it "exp_labels") as [label|]; cbn [obind] in Hr; [|discriminate Hr].
    destruct (derive_latent n label) as [t| |]; cbn [obind] in Hr; try discriminate Hr.
    destruct (sdict_get (st_dict st1) "exp_latents") as [la|]; cbn [obind] in Hr;
      [|discriminate Hr].
    eapply Hfin; [|exact Hr]; reflexivity.
  - exact (Hfin _ eq_refl Hr).
Qed.

(** An item without an ["exp_latents_values"] entry ends its step with
    [sample_d["exp_latents_values"] = sample_d["exp_latents"]]: both keys
    name the same list. *)
Lemma register_item_alias (n : nat) (st st' : store) (it : item) :
  store_wf st ->
  (exists l, sdict_get (st_dict st) "exp_latents_values" = Some l) ->
  ~ In "exp_latents_values"%string (item_keys it) ->
  register_item n st it = Ret st' ->
  exists l, sdict_get (st_dict st') "exp_latents_values" = Some l /\
            sdict_get (st_dict st') "exp_latents" = Some l.
Proof.
  intros Hwf [lv Hlv] Hnin Hr. unfold register_item in Hr.
  destruct (register_keys_spec it st (map (fun '(k, _) => (k, true)) (st_dict st)) Hwf)
    as [_ Hkeys].
  destruct (Hkeys _ Hnin) as [Hn _].
  destruct (register_keys st _ it) as [st1 need1]. cbn [snd] in Hn.
  rewrite sdict_get_need0, Hlv in Hn.
  assert (Hfin : forall st2,
            (nlv <- lookup_or_keyerror need1 "exp_latents_values" ;;
             if nlv then
               l <- lookup_or_keyerror (st_dict st2) "exp_latents" ;;
               Ret {| st_dict := sdict_set (st_dict st2) "exp_latents_values" l;
                      st_heap := st_heap st2 |}
             else Ret st2) = Ret st' ->
            exists l, sdict_get (st_dict st') "exp_latents_values" = Some l /\
                      sdict_get (st_dict st') "exp_latents" = Some l).
  { intros st2 H. unfold lookup_or_keyerror in H. rewrite Hn in H. cbn [obind] in H.
    destruct (sdict_get (st_dict st2) "exp_latents") as [l2|] eqn:E2; cbn [obind] in H;
      [|discriminate H].
    injection H as <-. cbn [st_dict]. exists l2. rewrite !sdict_get_set. simpl.
    split; [reflexivity|exact E2]. }
  unfold lookup_or_keyerror in Hr.
  destruct (sdict_get need1 "exp_labels") as [[|]|]; cbn [obind] in Hr; try discriminate Hr.
  destruct (sdict_get need1 "exp_latents") as [[|]|]; cbn [obind] in Hr; try discriminate Hr.
  - destruct (sdict_get it "exp_labels") as [label|]; cbn [obind] in Hr; [|discriminate Hr].
    destruct (derive_latent n label) as [t| |]; cbn [obind] in Hr; try discriminate Hr.
    destruct (sdict_get (st_dict st1) "exp_latents") as [la|]; cbn [obind] in Hr;
      [|discriminate Hr].
    exact (Hfin _ Hr).
  - exact (Hfin _ Hr).
Qed.

Lemma payload_loop_alias (ds : dual_ds) :
  (forall it, In it (ds_items (dl_train ds) ++ ds_items (dl_test ds)) ->
     ~ In "exp_latents_values"%string (item_keys it)) ->
  forall (indices : list nat) (tp : bool) (st st' : store),
  indices <> [] -> store_wf st ->
  (exists l, sdict_get (st_dict st) "exp_latents_values" = Some l) ->
  payload_loop ds indices tp st = Ret st' ->
  exists l, sdict_get (st_dict st') "exp_latents_values" = Some l /\
            sdict_get (st_dict st') "exp_latents" = Some l.
Proof.
  intros Hno indices. induction indices as [|i rest IH]; intros tp st st' Hne Hwf Hlv H;
    [contradiction|].
  rewrite payload_loop_cons in H.
  destruct (item_at ds i) as [it| |] eqn:Ei; cbn [obind] in H; try discriminate H.
  destruct (register_item (dl_nbr_classes ds) st it) as [st1| |] eqn:Er;
    cbn [obind] in H; try discriminate H.
  pose proof (register_item_alias _ _ _ _ Hwf Hlv (Hno it (item_at_in _ _ _ Ei)) Er) as Ha.
  destruct tp; [injection H as <-; exact Ha|].
  destruct rest as [|j rest]; [injection H as <-; exact Ha|].
  apply (IH false st1 st'); [discriminate|exact (register_item_wf _ _ _ _ Hwf Er)| |exact H].
  exact (register_item_key_kept _ _ _ _ _ Er Hlv).
Qed.

(** When no item of either dataset has an ["exp_latents_values"] entry,
    the ["exp_latents_values"] entry [sample] returns is the
    ["exp_latents"] one: the code aliases the two lists. *)
Theorem sample_latents_values_alias (ds : dual_ds) (idx : nat)
    (from_class : option (list Z)) (excepts : option (list nat)) (target_only : bool)
    (rs : nat -> nat) (fuel : nat) (so : sample_out) :
  (forall it, In it (ds_items (dl_train ds) ++ ds_items (dl_test ds)) ->
     ~ In "exp_latents_values"%string (item_keys it)) ->
  sample ds idx from_class excepts target_only rs fuel = Ret so ->
  exists v, sdict_get (so_payload so) "exp_latents_values" = Some v /\
            sdict_get (so_payload so) "exp_latents" = Some v.
Proof.
  intros Hno H. unfold sample in H.
  destruct (sample_indices ds idx from_class excepts rs fuel) as [[indices evs]| |];
    cbn [obind] in H; try discriminate H.
  destruct (build_payload ds indices target_only) as [payload| |] eqn:Hb;
    cbn [obind] in H; try discriminate H.
  injection H as <-. cbn [so_payload]. unfold build_payload in Hb.
  destruct (payload_loop ds indices target_only init_store) as [st| |] eqn:Hp;
    cbn [obind] in Hb; try discriminate Hb.
  destruct indices as [|i rest].
  { injection Hp as <-. discriminate Hb. }
  destruct (finalize_dict (st_heap st) (st_dict st)) as [d| |] eqn:Hf;
    cbn [obind] in Hb; try discriminate Hb.
  pose proof (payload_loop_alias ds Hno (i :: rest) target_only init_store st
                ltac:(discriminate) init_store_wf ltac:(eexists; reflexivity) Hp) as Ha.
  destruct Ha as [l [Hvl Hla]].
  destruct (finalize_dict_get _ _ _ _ _ Hf Hvl) as [v1 [Hv1 Hf1]].
  destruct (finalize_dict_get _ _ _ _ _ Hf Hla) as [v2 [Hv2 Hf2]].
  rewrite (unsqueeze_experiences_other d payload _ Hb) by discriminate.
  rewrite (unsqueeze_experiences_other d payload _ Hb) by discriminate.
  exists v1. rewrite Hv1, Hv2. split; [reflexivity|congruence].
Qed.

Lemma sample_latents_values_alias_witness :
  exists so, sample ex_ds 3 None None false (fun k => k) 1 = Ret so /\
  exists v, sdict_get (so_payload so) "exp_latents_values" = Some v /\
            sdict_get (so_payload so) "exp_latents" = Some v.
Proof.
  eexists. split; [vm_compute; reflexivity|].
  apply (sample_latents_values_alias ex_ds 3 None None false (fun k => k) 1 _).
  - intros it Hin. vm_compute in Hin.
    repeat destruct Hin as [<-|Hin]; try contradiction; vm_compute; intuition discriminate.
  - vm_compute. reflexivity.
Defined.

(** Once [need_reg[k]] is [False] it stays so through the key loop. *)
Lemma register_keys_need_false_kept (it : item) :
  forall (st : store) (need : list (string * bool)) (k : string),
  sdict_get need k = Some false ->
  sdict_get (snd (register_keys st need it)) k = Some false.
Proof.
  unfold register_keys.
  induction it as [|[key value] it IH]; intros st need k Hk; cbn [fold_left]; [exact Hk|].
  destruct (sdict_get (st_dict st) key); apply IH; [|exact Hk].
  rewrite sdict_get_set. destruct (String.eqb k key); [reflexivity|exact Hk].
Qed.

(** A key the item has and [sample_d] already had ends with
    [need_reg[k] = False]. *)
Lemma register_keys_need_false (it : item) :
  forall (st : store) (need : list (string * bool)) (k : string),
  In k (item_keys it) -> (exists l, sdict_get (st_dict st) k = Some l) ->
  sdict_get (snd (register_keys st need it)) k = Some false.
Proof.
  induction it as [|[key value] it IH]; intros st need k Hin [l Hl]; [destruct Hin|].
  unfold register_keys. cbn [fold_left].
  destruct (sdict_get (st_dict st) key) as [l'|] eqn:E.
  - destruct (String.eqb_spec k key) as [->|Hne].
    + apply (register_keys_need_false_kept it). rewrite sdict_get_set, String.eqb_refl.
      reflexivity.
    + destruct Hin as [Heq|Hin]; [simpl in Heq; congruence|].
      apply (IH _ _ k Hin). exists l. exact Hl.
  - destruct (String.eqb_spec k key) as [->|Hne]; [congruence|].
    destruct Hin as [Heq|Hin]; [simpl in Heq; congruence|].
    apply (IH _ _ k Hin). exists l. cbn [st_dict]. rewrite sdict_get_app, Hl. reflexivity.
Qed.

Lemma sample_first_item (ds : dual_ds) (idx : nat) (from_class : option (list Z))
    (excepts : option (list nat)) (target_only : bool) (rs : nat -> nat) (fuel : nat)
    (t : nat) (rest : list nat) (evs : list event) (it : item) (e : pyexc) :
  sample_indices ds idx from_class excepts rs fuel = Ret (t :: rest, evs) ->
  item_at ds t = Ret it ->
  register_item (dl_nbr_classes ds) init_store it = Exc e ->
  sample ds idx from_class excepts target_only rs fuel = Exc e.
Proof.
  intros Hs Ht Hr. unfold sample. rewrite Hs. cbn [obind].
  unfold build_payload. rewrite payload_loop_cons, Ht. cbn [obind]. rewrite Hr. reflexivity.
Qed.

(** The assert of line 149: a target item without an ["exp_labels"]
    entry makes [sample] raise [AssertionError]. *)
Theorem sample_missing_label (ds : dual_ds) (idx : nat) (from_class : option (list Z))
    (excepts : option (list nat)) (target_only : bool) (rs : nat -> nat) (fuel : nat)
    (t : nat) (rest : list nat) (evs : list event) (it : item) :
  sample_indices ds idx from_class excepts rs fuel = Ret (t :: rest, evs) ->
  item_at ds t = Ret it ->
  ~ In "exp_labels"%string (item_keys it) ->
  sample ds idx from_class excepts target_only rs fuel = Exc AssertionError.
Proof.
  intros Hs Ht Hnin. apply (sample_first_item _ _ _ _ _ _ _ t rest evs it _ Hs Ht).
  unfold register_item.
  destruct (register_keys_spec it init_store (map (fun '(k, _) => (k, true)) (st_dict init_store))
              init_store_wf) as [_ Hkeys].
  destruct (Hkeys _ Hnin) as [Hn _].
  destruct (register_keys init_store _ it) as [st1 need1]. cbn [snd] in Hn.
  unfold lookup_or_keyerror. rewrite Hn. reflexivity.
Qed.

Lemma sample_missing_label_witness :
  sample_indices ex_bad_ds 0 None None (fun k => k) 1 = Ret ([0], []) /\
  sample ex_bad_ds 0 None None false (fun k => k) 1 = Exc AssertionError.
Proof.
  split; [vm_compute; reflexivity|].
  apply (sample_missing_label ex_bad_ds 0 None None false (fun k => k) 1 0 [] []
           [("experiences", VTensor (TNode [TLeaf 0]))]%string).
  - vm_compute. reflexivity.
  - vm_compute. reflexivity.
  - vm_compute. intuition discriminate.
Defined.

(** Lines 151-153 for a target item without ["exp_latents"]: a label that
    is not an int fails the [isinstance] assert, and an int label outside
    [-nbr_classes, nbr_classes) makes [latent[label] = 1.0] raise
    [IndexError]. *)
Theorem sample_label_latent_errors (ds : dual_ds) (idx : nat)
    (from_class : option (list Z)) (excepts : option (list nat)) (target_only : bool)
    (rs : nat -> nat) (fuel : nat) (t : nat) (rest : list nat) (evs : list event)
    (it : item) (label : val) :
  sample_indices ds idx from_class excepts rs fuel = Ret (t :: rest, evs) ->
  item_at ds t = Ret it ->
  ~ In "exp_latents"%string (item_keys it) ->
  sdict_get it "exp_labels" = Some label ->
  ((forall z, label <> VInt z) ->
     sample ds idx from_class excepts target_only rs fuel = Exc AssertionError) /\
  (forall z, label = VInt z -> py_index (dl_nbr_classes ds) z = None ->
     sample ds idx from_class excepts target_only rs fuel = Exc IndexError).
Proof.
  intros Hs Ht Hnin Hlabel.
  assert (Hin : In "exp_labels"%string (item_keys it)).
  { clear -Hlabel. induction it as [|[k v] it IH]; [discriminate Hlabel|].
    cbn [sdict_get] in Hlabel. destruct (String.eqb_spec "exp_labels" k) as [->|];
      [left; reflexivity|right; exact (IH Hlabel)]. }
  assert (Hreg : forall e, derive_latent (dl_nbr_classes ds) label = Exc e ->
            register_item (dl_nbr_classes ds) init_store it = Exc e).
  { intros e He. unfold register_item.
    pose proof (register_keys_need_false it init_store
                  (map (fun '(k, _) => (k, true)) (st_dict init_store)) _ Hin
                  ltac:(eexists; reflexivity)) as Hl.
    destruct (register_keys_spec it init_store
                (map (fun '(k, _) => (k, true)) (st_dict init_store)) init_store_wf)
      as [_ Hkeys].
    destruct (Hkeys _ Hnin) as [Hn _].
    destruct (register_keys init_store _ it) as [st1 need1]. cbn [snd] in Hn, Hl.
    unfold lookup_or_keyerror. rewrite Hl. cbn [obind]. rewrite Hn. cbn [obind].
    rewrite Hlabel. cbn [obind]. rewrite He. reflexivity. }
  split.
  - intros Hnot. apply (sample_first_item _ _ _ _ _ _ _ t rest evs it _ Hs Ht).
    apply Hreg. destruct label as [z| |]; [exfalso; exact (Hnot z eq_refl)|reflexivity|reflexivity].
  - intros z -> Hz. apply (sample_first_item _ _ _ _ _ _ _ t rest evs it _ Hs Ht).
    apply Hreg. cbn [derive_latent]. unfold setitem1, zeros.
    rewrite length_replicate, Hz. reflexivity.
Qed.

Lemma sample_label_latent_errors_witness :
  sample ex_bad_ds 2 None None false (fun k => k) 1 = Exc AssertionError /\
  sample ex_bad_ds 1 None None false (fun k => k) 1 = Exc IndexError.
Proof.
  split.
  - apply (proj1 (sample_label_latent_errors ex_bad_ds 2 None None false (fun k => k) 1 2 [] []
             [("experiences", VTensor (TNode [TLeaf 0])); ("exp_labels", VOther "cat")]%string
             (VOther "cat") ltac:(vm_compute; reflexivity) ltac:(vm_compute; reflexivity)
             ltac:(vm_compute; intuition discriminate) ltac:(vm_compute; reflexivity))).
    intros z. discriminate.
  - apply (proj2 (sample_label_latent_errors ex_bad_ds 1 None None false (fun k => k) 1 1 [] []
             [("experiences", VTensor (TNode [TLeaf 0])); ("exp_labels", VInt 5)]%string
             (VInt 5) ltac:(vm_compute; reflexivity) ltac:(vm_compute; reflexivity)
             ltac:(vm_compute; intuition discriminate) ltac:(vm_compute; reflexivity)) 5%Z).
    + reflexivity.
    + vm_compute. reflexivity.
Defined.

(** In a mode that contains ["test"] but is not ["test"] (say
    ["test_set"]), [__len__] is [len(train)] while [sample] reads the
    target from the test dataset: an index [idx] with
    [len(test) <= idx < len(self)] makes [sample] raise [IndexError] as
    soon as the index selection succeeds. *)
Theorem sample_len_test_like_mode (ds : dual_ds) (idx : nat) (from_class : option (list Z))
    (excepts : option (list nat)) (target_only : bool) (rs : nat -> nat) (fuel : nat)
    (indices : list nat) (evs : list event) :
  str_contains "test" (dl_mode ds) = true ->
  dl_mode ds <> "test"%string ->
  ds_len (dl_test ds) <= idx < DualLabeledDataset_len ds ->
  sample_indices ds idx from_class excepts rs fuel = Ret (indices, evs) ->
  sample ds idx from_class excepts target_only rs fuel = Exc IndexError.
Proof.
  intros Htest _ [Hidx _] Hs.
  pose proof Hs as Hs'. unfold sample_indices in Hs'.
  destruct (sample_loop _ _ _ _ _ _ _ _ _) as [[[u n] evs1]| |]; cbn [obind] in Hs';
    try discriminate Hs'.
  destruct (draw rs 0 n u _) as [l| |] eqn:Hd; cbn [obind] in Hs'; try discriminate Hs'.
  injection Hs' as <- _.
  destruct (draw_prefix _ _ _ _ _ _ Hd) as [rest [-> _]].
  unfold sample. rewrite Hs. cbn [obind]. unfold build_payload.
  cbn [app]. rewrite payload_loop_cons.
  assert (Hit : item_at ds (target_global ds idx) = Exc IndexError).
  { unfold item_at, target_global. rewrite Htest.
    replace (Nat.leb (ds_len (dl_train ds)) (idx + ds_len (dl_train ds))) with true
      by (symmetry; apply Nat.leb_le; lia).
    replace (idx + ds_len (dl_train ds) - ds_len (dl_train ds)) with idx by lia.
    rewrite (proj2 (nth_error_None _ _)) by (unfold ds_len in Hidx; exact Hidx).
    reflexivity. }
  rewrite Hit. reflexivity.
Qed.

Lemma sample_len_test_like_mode_witness :
  sample ex_testlike_ds 2 None None false (fun k => k) 1 = Exc IndexError.
Proof.
  apply (sample_len_test_like_mode ex_testlike_ds 2 None None false (fun k => k) 1
           [7; 4] [EvRemoveTargetFailed; EvDebuggerBreak]).
  - vm_compute. reflexivity.
  - vm_compute. discriminate.
  - vm_compute. lia.
  - vm_compute. reflexivity.
Defined.

(* ===================================================================== *)
(** ** Further properties of ReferentialGame *)
(* ===================================================================== *)







































